(** * On-type rename: linked editing of sibling ranges

    A shallow embedding of [src/vs/editor/contrib/rename/onTypeRename.ts]:
    the containment test [isWithin], the editor contribution
    [OnTypeRenameContribution] with its event handlers, and the resolver
    [getOnTypeRenameRanges].

    The host editor, the text model, the provider registry and the promise
    helpers are collaborators of the file.  Calls made on them are recorded
    in a trace of effects; what they answer is read from a snapshot of the
    editor that is handed to every handler. *)

From Stdlib Require Import ZArith List String Bool Lia Sorted Permutation.
Import ListNotations.

Local Open Scope string_scope.
Local Open Scope list_scope.
Local Open Scope Z_scope.

(** ** Ranges, positions and document changes *)

(** [IRange]: four numbers, lines and columns. *)
Record IRange : Type := mkRange {
  startLineNumber : Z;
  startColumn : Z;
  endLineNumber : Z;
  endColumn : Z
}.

Record Position : Type := mkPosition {
  lineNumber : Z;
  column : Z
}.

(** One entry of [e.changes]: the replaced range, its offset and length in
    the old document, and the new text. *)
Record IModelContentChange : Type := mkChange {
  range : IRange;
  rangeOffset : Z;
  rangeLength : Z;
  text : string
}.

Record IModelContentChangedEvent : Type := mkChangedEvent {
  changes : list IModelContentChange
}.

(** An edit handed to [executeEdits]. *)
Record IIdentifiedSingleEditOperation : Type := mkEdit {
  edit_range : IRange;
  edit_text : string
}.

Inductive TrackedRangeStickiness : Type :=
| AlwaysGrowsWhenTypingAtEdges
| NeverGrowsWhenTypingAtEdges
| GrowsOnlyWhenTypingBefore
| GrowsOnlyWhenTypingAfter.

Record ModelDecorationOptions : Type := mkOptions {
  stickiness : TrackedRangeStickiness;
  className : string
}.

Record IModelDeltaDecoration : Type := mkDecoration {
  deco_range : IRange;
  options : ModelDecorationOptions
}.

(** [isWithin(inner, outer)], lines 22-27: four comparisons, field by
    field. *)
Definition isWithin (inner outer : IRange) : bool :=
  (startLineNumber outer <=? startLineNumber inner) &&
  (endLineNumber outer >=? endLineNumber inner) &&
  (startColumn outer <=? startColumn inner) &&
  (endColumn outer >=? endColumn inner).

(** ** The host: text model and editor *)

(** The part of [ITextModel] the contribution reads. *)
Record ITextModel : Type := mkModel {
  getOffsetAt : Position -> Z;
  getDecorationRange : string -> option IRange
}.

(** A snapshot of [ICodeEditor] as one handler sees it.  [getModel] is
    [None] exactly when [hasModel()] is false; [deltaDecorations] gives the
    handles the editor answers with. *)
Record ICodeEditor : Type := mkEditor {
  getModel : option ITextModel;
  getPosition : option Position;
  getOption_autoRename : bool;
  deltaDecorations : list string -> list IModelDeltaDecoration -> list string
}.

Definition hasModel (editor : ICodeEditor) : bool :=
  match getModel editor with Some _ => true | None => false end.

(** ** Values, errors and promises *)

(** [IRange[] | null | undefined]. *)
Inductive RangesResult : Type :=
| Ranges (rs : list IRange)
| Null
| Undefined.

Inductive Error : Type :=
| Canceled
| TypeError (message : string)
| ExternalError (message : string).

(** How a promise settles. *)
Inductive Settled (A : Type) : Type :=
| Fulfilled (value : A)
| Rejected (err : Error).
Arguments Fulfilled {A} value.
Arguments Rejected {A} err.

(** ** The contribution *)

(** The mutable fields of [OnTypeRenameContribution].  A request is named by
    its index in the machine's table of promises; [_syncedRanges] is [None]
    while the field is [undefined]. *)
Record OnTypeRenameContribution : Type := mkContribution {
  _enabled : bool;
  _currentRequest : option nat;
  _currentDecorations : list string;
  _syncedRanges : option (list IRange)
}.

(** Calls the contribution makes on its collaborators.  The editor answers
    [executeEdits] with a content change of its own, which reaches the
    contribution as one more event. *)
Inductive Effect : Type :=
| ConsoleLog (message : string)
| ConsoleLogRanges (ranges : list (option IRange))
| ExecuteEdits (source : string) (edits : list IIdentifiedSingleEditOperation)
| DeltaDecorations (oldDecorations : list string)
                   (newDecorations : list IModelDeltaDecoration)
| ResolveRanges (request : nat) (position : Position)
| CancelRequest (request : nat)
| ReportUnexpectedError (err : Error).

(** A cancelable promise: still pending, cancelled with its rejection not
    yet delivered, or done. *)
Inductive PromiseState : Type :=
| Pending
| CancelRequested
| Done.

Record Machine : Type := mkMachine {
  self : OnTypeRenameContribution;
  promises : list PromiseState;
  trace : list Effect
}.

(** A handler either returns or throws. *)
Inductive Completion (A : Type) : Type :=
| Normal (a : A)
| Throw (e : Error).
Arguments Normal {A} a.
Arguments Throw {A} e.

Definition M (A : Type) : Type := Machine -> Completion A * Machine.

Definition ret {A} (a : A) : M A := fun m => (Normal a, m).

Definition bind {A B} (c : M A) (k : A -> M B) : M B :=
  fun m =>
    match c m with
    | (Normal a, m') => k a m'
    | (Throw e, m') => (Throw e, m')
    end.

Definition throw {A} (e : Error) : M A := fun m => (Throw e, m).

Declare Scope handler_scope.
Delimit Scope handler_scope with handler.
Notation "x <- c ;; k" := (bind c (fun x => k))
  (at level 61, c at next level, right associativity) : handler_scope.
Notation "c ;; k" := (bind c (fun _ => k))
  (at level 61, right associativity) : handler_scope.
Local Open Scope handler_scope.

Definition this : M OnTypeRenameContribution := fun m => (Normal (self m), m).

Definition emit (e : Effect) : M unit :=
  fun m => (Normal tt, mkMachine (self m) (promises m) (trace m ++ [e])).

Definition update (f : OnTypeRenameContribution -> OnTypeRenameContribution)
    : M unit :=
  fun m => (Normal tt, mkMachine (f (self m)) (promises m) (trace m)).

(** Assignments to the fields. *)
Definition set_enabled (b : bool) (c : OnTypeRenameContribution) :=
  mkContribution b (_currentRequest c) (_currentDecorations c)
    (_syncedRanges c).

Definition set_currentRequest (r : option nat)
    (c : OnTypeRenameContribution) :=
  mkContribution (_enabled c) r (_currentDecorations c) (_syncedRanges c).

Definition set_currentDecorations (d : list string)
    (c : OnTypeRenameContribution) :=
  mkContribution (_enabled c) (_currentRequest c) d (_syncedRanges c).

Definition set_syncedRanges (r : option (list IRange))
    (c : OnTypeRenameContribution) :=
  mkContribution (_enabled c) (_currentRequest c) (_currentDecorations c) r.

(** [this._syncedRanges[i]]: reading a field of the element throws a
    [TypeError] when the index is past the end. *)
Definition rangeAt (ranges : list IRange) (i : nat) : M IRange :=
  match nth_error ranges i with
  | Some r => ret r
  | None =>
    throw (TypeError "Cannot read property 'startLineNumber' of undefined")
  end.

(** The [onDidChangeModelContent] listener, lines 76-113. *)
Definition onDidChangeModelContent (editor : ICodeEditor)
    (e : IModelContentChangedEvent) : M unit :=
  match getModel editor with
  | None => ret tt
  | Some model =>
    emit (ConsoleLog "buffer changed!") ;;
    c <- this ;;
    match changes e with
    | [change] =>
      if rangeLength change =? 0 then
        match _syncedRanges c with
        | Some syncedRanges =>
          if (0 <? Z.of_nat (List.length syncedRanges)) then
            first <- rangeAt syncedRanges 0 ;;
            if isWithin (range change) first then
              let firstStartOffset :=
                getOffsetAt model
                  (mkPosition (startLineNumber first) (startColumn first)) in
              second <- rangeAt syncedRanges 1 ;;
              let targetRange :=
                mkRange
                  (startLineNumber second)
                  (startColumn second + (rangeOffset change - firstStartOffset))
                  (startLineNumber second)
                  (startColumn second + (rangeOffset change - firstStartOffset)) in
              emit (ExecuteEdits "foo" [mkEdit targetRange (text change)])
            else ret tt
          else ret tt
        | None => ret tt
        end
      else ret tt
    | _ => ret tt
    end ;;
    c <- this ;;
    emit (ConsoleLogRanges
            (map (getDecorationRange model) (_currentDecorations c)))
  end.

(** [OnTypeRenameContribution.DECORATION], lines 33-36. *)
Definition DECORATION : ModelDecorationOptions :=
  mkOptions AlwaysGrowsWhenTypingAtEdges "on-type-rename-decoration".

(** [this._editor.deltaDecorations(old, new)]: the call is recorded and the
    editor's handles are returned. *)
Definition editor_deltaDecorations (editor : ICodeEditor)
    (oldDecorations : list string) (newDecorations : list IModelDeltaDecoration)
    : M (list string) :=
  emit (DeltaDecorations oldDecorations newDecorations) ;;
  ret (deltaDecorations editor oldDecorations newDecorations).

(** [_stopAll], lines 121-123. *)
Definition _stopAll (editor : ICodeEditor) : M unit :=
  c <- this ;;
  handles <- editor_deltaDecorations editor (_currentDecorations c) [] ;;
  update (set_currentDecorations handles).

(** [dispose], lines 116-119, once the listeners are released. *)
Definition dispose (editor : ICodeEditor) : M unit :=
  _stopAll editor.

(** *** Cancelable promises *)

Fixpoint setNth {A : Type} (n : nat) (x : A) (l : list A) : list A :=
  match l, n with
  | [], _ => []
  | _ :: t, O => x :: t
  | h :: t, S n' => h :: setNth n' x t
  end.

Definition setPromise (r : nat) (s : PromiseState) : M unit :=
  fun m => (Normal tt, mkMachine (self m) (setNth r s (promises m)) (trace m)).

Definition promiseState (r : nat) : M (option PromiseState) :=
  fun m => (Normal (nth_error (promises m) r), m).

(** Modelled from the spec: [createCancelablePromise] of [vs/base/common/async]
    is not part of the sources.  The spec calls a resolution a cancelable
    asynchronous operation held in a single slot; a new promise is pending,
    and starting it calls the resolver with the model, the position and the
    promise's own token. *)
Definition createCancelablePromise (position : Position) : M nat :=
  fun m =>
    let r := List.length (promises m) in
    (Normal r,
     mkMachine (self m) (promises m ++ [Pending])
       (trace m ++ [ResolveRanges r position])).

(** Modelled from the spec: [CancelablePromise.cancel].  Cancelling a pending
    resolution makes it settle as cancelled, whatever the resolver answers
    later; cancelling a promise that is no longer pending changes nothing. *)
Definition cancel (r : nat) : M unit :=
  emit (CancelRequest r) ;;
  s <- promiseState r ;;
  match s with
  | Some Pending => setPromise r CancelRequested
  | _ => ret tt
  end.

(** Modelled from the spec: [onUnexpectedError] of [vs/base/common/errors] is
    not part of the sources.  The spec has errors reported to an external
    sink, and cancellation is not an error: it is not reported. *)
Definition onUnexpectedError (err : Error) : M unit :=
  match err with
  | Canceled => ret tt
  | _ => emit (ReportUnexpectedError err)
  end.

(** The fulfilment callback of [_run], lines 142-149. *)
Definition _run_onFulfilled (editor : ICodeEditor) (value : RangesResult)
    : M unit :=
  let value := match value with Ranges rs => rs | Null | Undefined => [] end in
  let decorations := map (fun range => mkDecoration range DECORATION) value in
  update (set_syncedRanges (Some value)) ;;
  c <- this ;;
  handles <-
    editor_deltaDecorations editor (_currentDecorations c) decorations ;;
  update (set_currentDecorations handles).

(** The rejection callback of [_run], line 149. *)
Definition _run_onRejected (err : Error) : M unit :=
  onUnexpectedError err.

(** [_run(position)], lines 125-150.  The caller passes
    [this._editor.getPosition()] where the source takes the default. *)
Definition _run (editor : ICodeEditor) (position : option Position) : M unit :=
  c <- this ;;
  match _enabled c, position with
  | true, Some position =>
    match getModel editor with
    | None => ret tt
    | Some model =>
      match _currentRequest c with
      | Some r => cancel r ;; update (set_currentRequest None)
      | None => ret tt
      end ;;
      r <- createCancelablePromise position ;;
      update (set_currentRequest (Some r))
    end
  | _, _ => ret tt
  end.

(** Modelled from the spec: how a [CancelablePromise] settles is not part of
    the sources.  It delivers its settlement to the callbacks of [_run]: the
    resolver's outcome if it is still pending, the cancellation error if it
    was cancelled; nothing the second time. *)
Definition settle (editor : ICodeEditor) (r : nat)
    (outcome : Settled RangesResult) : M unit :=
  s <- promiseState r ;;
  match s with
  | Some Pending =>
    setPromise r Done ;;
    match outcome with
    | Fulfilled value => _run_onFulfilled editor value
    | Rejected err => _run_onRejected err
    end
  | Some CancelRequested =>
    setPromise r Done ;;
    _run_onRejected Canceled
  | Some Done | None => ret tt
  end.

(** *** The listeners registered by the constructor, lines 55-113 *)

Definition onDidChangeModel (editor : ICodeEditor) : M unit :=
  _stopAll editor ;;
  _run editor (getPosition editor).

Definition onDidChangeConfiguration (editor : ICodeEditor)
    (hasChanged_autoRename : bool) : M unit :=
  if hasChanged_autoRename then
    update (set_enabled (getOption_autoRename editor)) ;;
    _stopAll editor ;;
    _run editor (getPosition editor)
  else ret tt.

Definition onDidChangeCursorPosition (editor : ICodeEditor)
    (position : Position) : M unit :=
  _run editor (Some position).

Definition onDidChange_registry (editor : ICodeEditor) : M unit :=
  _run editor (getPosition editor).

(** The state the constructor leaves, lines 46-54. *)
Definition constructor (editor : ICodeEditor) : Machine :=
  mkMachine (mkContribution (getOption_autoRename editor) None [] None) [] [].

(** What can happen to a contribution. *)
Inductive Event : Type :=
| DidChangeModel
| DidChangeConfiguration (hasChanged_autoRename : bool)
| DidChangeCursorPosition (position : Position)
| RegistryDidChange
| DidChangeModelContent (e : IModelContentChangedEvent)
| RequestSettled (r : nat) (outcome : Settled RangesResult).

Definition handle (editor : ICodeEditor) (ev : Event) : M unit :=
  match ev with
  | DidChangeModel => onDidChangeModel editor
  | DidChangeConfiguration h => onDidChangeConfiguration editor h
  | DidChangeCursorPosition p => onDidChangeCursorPosition editor p
  | RegistryDidChange => onDidChange_registry editor
  | DidChangeModelContent e => onDidChangeModelContent editor e
  | RequestSettled r outcome => settle editor r outcome
  end.

(** A run of the event loop: each event comes with the editor as it is
    then.  An exception ends its handler only. *)
Fixpoint run (events : list (ICodeEditor * Event)) (m : Machine) : Machine :=
  match events with
  | [] => m
  | (editor, ev) :: rest => run rest (snd (handle editor ev m))
  end.

(** ** The resolver *)

(** The token as a callee sees it at the moment of the call. *)
Record CancellationToken : Type := mkToken {
  isCancellationRequested : bool
}.

(** A token changes while a resolution runs: [timeline n] is the token at
    the moment the [n]-th provider is asked. *)
Definition TokenTimeline : Type := nat -> CancellationToken.

(** [CancellationToken.None] is never cancelled. *)
Definition CancellationToken_None : TokenTimeline :=
  fun _ => mkToken false.

(** What a call of a provider comes to.  It returns
    [ProviderResult<IRange[]>], a value or a thenable, of which
    [Promise.resolve] makes a promise, and [Returns] gives how that promise
    settles; or it throws before it returns anything. *)
Inductive ProviderCall : Type :=
| Returns (promise : Settled RangesResult)
| Throws (err : Error).

Record OnTypeRenameProvider : Type := mkProvider {
  provideOnTypeRenameRanges :
    ITextModel -> Position -> CancellationToken -> ProviderCall
}.

(** Calls the resolver makes on its collaborators. *)
Inductive ResolverEffect : Type :=
| Provide (provider : OnTypeRenameProvider) (token : CancellationToken)
| ReportUnexpectedExternalError (err : Error).

(** A task yields a promise when it is started; [now] counts the tasks
    started before it.  A task that throws when it is started yields no
    promise: it fails with the error thrown, which [Rejected] stands for as
    well. *)
Definition ITask (T : Type) : Type := nat -> list ResolverEffect * Settled T.

(** Modelled from the spec: the registry [OnTypeRenameProviderRegistry] of
    [vs/editor/common/modes] is not part of the sources.  Providers register
    dynamically; each is applicable to a document or not and has a
    priority/score for it.  The list holds them in registration order. *)
Record RegistryEntry : Type := mkEntry {
  applicable : ITextModel -> bool;
  score : ITextModel -> Z;
  provider : OnTypeRenameProvider
}.

Definition LanguageFeatureRegistry : Type := list RegistryEntry.

Fixpoint insertByScore (model : ITextModel) (e : RegistryEntry)
    (sorted : list RegistryEntry) : list RegistryEntry :=
  match sorted with
  | [] => [e]
  | h :: t =>
    if score h model <=? score e model then e :: h :: t
    else h :: insertByScore model e t
  end.

Fixpoint sortByScore (model : ITextModel) (entries : list RegistryEntry)
    : list RegistryEntry :=
  match entries with
  | [] => []
  | e :: rest => insertByScore model e (sortByScore model rest)
  end.

Definition orderedEntries (registry : LanguageFeatureRegistry)
    (model : ITextModel) : list RegistryEntry :=
  sortByScore model (filter (fun e => applicable e model) registry).

(** Modelled from the spec: [OnTypeRenameProviderRegistry.ordered(model)], the
    providers applicable to the document, ordered by descending
    priority/score, ties broken by registration order (a stable sort). *)
Definition ordered (registry : LanguageFeatureRegistry) (model : ITextModel)
    : list OnTypeRenameProvider :=
  map provider (orderedEntries registry model).

(** Modelled from the spec: [arrays.isNonEmptyArray] is not part of the
    sources.  A result is good when it is a non-empty sequence of ranges. *)
Definition isNonEmptyArray (obj : RangesResult) : bool :=
  match obj with
  | Ranges (_ :: _) => true
  | Ranges [] | Null | Undefined => false
  end.

(** Modelled from the spec: [onUnexpectedExternalError] of
    [vs/base/common/errors] is not part of the sources.  The error goes to
    the external unexpected-error sink and the provider counts as having
    given no result. *)
Definition onUnexpectedExternalError (err : Error)
    : list ResolverEffect * RangesResult :=
  ([ReportUnexpectedExternalError err], Undefined).

(** Modelled from the spec: [first] of [vs/base/common/async] is not part of
    the sources.  The tasks are started strictly in order, one at a time;
    the first result that [shouldStop] accepts is the answer and no later
    task is started; with no such result the answer is [defaultValue], the
    no-result value.  Nothing in the chain catches the failure of a task:
    the chain fails with it and no later task is started. *)
Fixpoint first {T : Type} (promiseFactories : list (ITask T))
    (shouldStop : T -> bool) (defaultValue : T) (now : nat)
    : list ResolverEffect * Settled T :=
  match promiseFactories with
  | [] => ([], Fulfilled defaultValue)
  | factory :: rest =>
    match factory now with
    | (effects, Fulfilled result) =>
      if shouldStop result then (effects, Fulfilled result)
      else
        let (later, answer) := first rest shouldStop defaultValue (S now) in
        ((effects ++ later)%list, answer)
    | (effects, Rejected err) => (effects, Rejected err)
    end
  end.

(** The task built for one provider, lines 160-162:
    [Promise.resolve(provider.provideOnTypeRenameRanges(model, position, token))
       .then(undefined, onUnexpectedExternalError)].
    The provider is called first, as the argument of [Promise.resolve]: when
    the call throws, the task is left before a promise exists and before the
    rejection handler is attached, so the error is not reported.  The
    handler turns the rejection of the promise into the value it returns. *)
Definition providerTask (model : ITextModel) (position : Position)
    (token : TokenTimeline) (provider : OnTypeRenameProvider)
    : ITask RangesResult :=
  fun now =>
    match provideOnTypeRenameRanges provider model position (token now) with
    | Returns (Fulfilled value) =>
      ([Provide provider (token now)], Fulfilled value)
    | Returns (Rejected err) =>
      let (reported, value) := onUnexpectedExternalError err in
      (Provide provider (token now) :: reported, Fulfilled value)
    | Throws err => ([Provide provider (token now)], Rejected err)
    end.

(** [getOnTypeRenameRanges(model, position, token)], lines 153-164.  The
    source leaves the third argument of [first] to its default, the
    no-result value [null]. *)
Definition getOnTypeRenameRanges (registry : LanguageFeatureRegistry)
    (model : ITextModel) (position : Position) (token : TokenTimeline)
    : list ResolverEffect * Settled RangesResult :=
  let orderedByScore := ordered registry model in
  first (map (providerTask model position token) orderedByScore)
        isNonEmptyArray Null 0.

(** The command [_executeRenameOnTypeProvider], line 166. *)
Definition _executeRenameOnTypeProvider (registry : LanguageFeatureRegistry)
    (model : ITextModel) (position : Position)
    : list ResolverEffect * Settled RangesResult :=
  getOnTypeRenameRanges registry model position CancellationToken_None.

(** *** Reading a resolver trace *)

(** The providers asked, in the order they were asked. *)
Fixpoint invoked (effects : list ResolverEffect) : list OnTypeRenameProvider :=
  match effects with
  | [] => []
  | Provide p _ :: rest => p :: invoked rest
  | ReportUnexpectedExternalError _ :: rest => invoked rest
  end.

(** The tokens handed out, in the same order. *)
Fixpoint tokensPassed (effects : list ResolverEffect)
    : list CancellationToken :=
  match effects with
  | [] => []
  | Provide _ tk :: rest => tk :: tokensPassed rest
  | ReportUnexpectedExternalError _ :: rest => tokensPassed rest
  end.

(** The errors sent to the sink. *)
Fixpoint reported (effects : list ResolverEffect) : list Error :=
  match effects with
  | [] => []
  | Provide _ _ :: rest => reported rest
  | ReportUnexpectedExternalError err :: rest => err :: reported rest
  end.

(** The value the task of a provider fulfils with: the provider's value,
    or [undefined] when its promise rejects.  (A provider that throws has no
    such value.) *)
Definition answer (model : ITextModel) (position : Position)
    (tk : CancellationToken) (p : OnTypeRenameProvider) : RangesResult :=
  match provideOnTypeRenameRanges p model position tk with
  | Returns (Fulfilled value) => value
  | Returns (Rejected _) | Throws _ => Undefined
  end.

(** ** Vocabulary of the specification *)

Definition getStartPosition (r : IRange) : Position :=
  mkPosition (startLineNumber r) (startColumn r).

Definition getEndPosition (r : IRange) : Position :=
  mkPosition (endLineNumber r) (endColumn r).

(** [p] is before or at [q] in document order. *)
Definition isBeforeOrEqual (p q : Position) : bool :=
  (lineNumber p <? lineNumber q) ||
  ((lineNumber p =? lineNumber q) && (column p <=? column q)).

(** The position lies in the span of the range, both ends included. *)
Definition containsPosition (r : IRange) (p : Position) : bool :=
  isBeforeOrEqual (getStartPosition r) p &&
  isBeforeOrEqual p (getEndPosition r).

(** The start of a range is not after its end, as for every range the
    editor reports. *)
Definition isWellFormed (r : IRange) : bool :=
  isBeforeOrEqual (getStartPosition r) (getEndPosition r).

(** The empty range at a position. *)
Definition collapsedAt (p : Position) : IRange :=
  mkRange (lineNumber p) (column p) (lineNumber p) (column p).

(** The number of characters a range spans. *)
Definition width (model : ITextModel) (r : IRange) : Z :=
  getOffsetAt model (getEndPosition r) - getOffsetAt model (getStartPosition r).

(** The effects a computation adds to the trace. *)
Definition effectsOf {A} (c : M A) (m : Machine) : list Effect :=
  skipn (List.length (trace m)) (trace (snd (c m))).

(** The machine after more effects. *)
Definition logged (m : Machine) (effects : list Effect) : Machine :=
  mkMachine (self m) (promises m) (trace m ++ effects).

(** The edits handed to [executeEdits]. *)
Fixpoint executedEdits (effects : list Effect)
    : list IIdentifiedSingleEditOperation :=
  match effects with
  | [] => []
  | ExecuteEdits _ edits :: rest => (edits ++ executedEdits rest)%list
  | _ :: rest => executedEdits rest
  end.

(** The decoration calls made. *)
Fixpoint decorationCalls (effects : list Effect)
    : list (list string * list IModelDeltaDecoration) :=
  match effects with
  | [] => []
  | DeltaDecorations old new :: rest => (old, new) :: decorationCalls rest
  | _ :: rest => decorationCalls rest
  end.

(** The resolutions started. *)
Fixpoint resolutionsStarted (effects : list Effect) : list nat :=
  match effects with
  | [] => []
  | ResolveRanges r _ :: rest => r :: resolutionsStarted rest
  | _ :: rest => resolutionsStarted rest
  end.

(** The errors sent to the unexpected-error sink. *)
Fixpoint errorsReported (effects : list Effect) : list Error :=
  match effects with
  | [] => []
  | ReportUnexpectedError err :: rest => err :: errorsReported rest
  | _ :: rest => errorsReported rest
  end.

(** Synced: a range set is recorded.  Absent: none is, which is also how an
    empty array counts. *)
Definition isSynced (c : OnTypeRenameContribution) : bool :=
  match _syncedRanges c with
  | Some (_ :: _) => true
  | Some [] | None => false
  end.

Definition rangeSetAbsent (c : OnTypeRenameContribution) : bool :=
  negb (isSynced c).

Definition isPending (m : Machine) (r : nat) : bool :=
  match nth_error (promises m) r with
  | Some Pending => true
  | _ => false
  end.


(** The single slot: a resolution that is still pending is the one the
    contribution holds in [_currentRequest]. *)
Definition singleSlot (m : Machine) : Prop :=
  forall r, isPending m r = true -> _currentRequest (self m) = Some r.

(** The array the fulfilment callback records for a value. *)
Definition recordedFor (value : RangesResult) : list IRange :=
  match value with
  | Ranges rs => rs
  | Null | Undefined => []
  end.

(** The table of promises once the request in the slot has been
    cancelled. *)
Definition afterCancel (m : Machine) : list PromiseState :=
  match _currentRequest (self m) with
  | Some r =>
    if isPending m r then setNth r CancelRequested (promises m)
    else promises m
  | None => promises m
  end.

(** The machine once [_run] has gone past its guards. *)
Definition resolving (position : Position) (m : Machine) : Machine :=
  mkMachine
    (set_currentRequest (Some (List.length (afterCancel m))) (self m))
    (afterCancel m ++ [Pending])
    (trace m ++
     match _currentRequest (self m) with
     | Some r => [CancelRequest r]
     | None => []
     end ++
     [ResolveRanges (List.length (afterCancel m)) position]).

(** The classification the listener makes, lines 84-88: one change, nothing
    removed, a recorded first range, and [isWithin] of the change in it. *)
Definition mirrorable (e : IModelContentChangedEvent)
    (c : OnTypeRenameContribution) : bool :=
  match changes e, _syncedRanges c with
  | [change], Some (primary :: _) =>
    (rangeLength change =? 0) && isWithin (range change) primary
  | _, _ => false
  end.

(** The eligibility rule in the words of the spec: a single change, a pure
    insertion, and an insertion point within the span of the primary range,
    boundaries included. *)
Definition eligible (e : IModelContentChangedEvent)
    (c : OnTypeRenameContribution) : bool :=
  match changes e, _syncedRanges c with
  | [change], Some (primary :: _) =>
    (rangeLength change =? 0) &&
    containsPosition primary (getStartPosition (range change))
  | _, _ => false
  end.

(** The edit the listener makes for the second recorded range. *)
Definition mirroredEdit (model : ITextModel) (change : IModelContentChange)
    (primary second : IRange) : IIdentifiedSingleEditOperation :=
  mkEdit
    (collapsedAt
       (mkPosition (startLineNumber second)
          (startColumn second +
           (rangeOffset change - getOffsetAt model (getStartPosition primary)))))
    (text change).

(** Offsets on a line advance by one per column from one column to
    another: the columns in between are columns of the line. *)
Definition columnsAdvanceBetween (model : ITextModel) (line from to : Z)
    : Prop :=
  forall col,
    from <= col < to ->
    getOffsetAt model (mkPosition line (col + 1)) =
    getOffsetAt model (mkPosition line col) + 1.

(** A provider's outcome is good when it is a non-empty array. *)
Definition isGood (outcome : ProviderCall) : bool :=
  match outcome with
  | Returns (Fulfilled value) => isNonEmptyArray value
  | Returns (Rejected _) | Throws _ => false
  end.

(** A provider yields nothing when it returns an empty array, [null] or
    [undefined], or a promise that rejects. *)
Definition yieldsNothing (outcome : ProviderCall) : bool :=
  match outcome with
  | Returns (Fulfilled value) => negb (isNonEmptyArray value)
  | Returns (Rejected _) => true
  | Throws _ => false
  end.

(** One entry has at least the priority of another for the document. *)
Definition outranks (model : ITextModel) (a b : RegistryEntry) : Prop :=
  score b model <= score a model.

(** The resolver's chain over a list of providers, the clock at [now]. *)
Definition resolveFrom (model : ITextModel) (position : Position)
    (token : TokenTimeline) (providers : list OnTypeRenameProvider) (now : nat)
    : list ResolverEffect * Settled RangesResult :=
  first (map (providerTask model position token) providers)
        isNonEmptyArray Null now.

(** The provider that gives no result wherever the promise of [p]
    rejects. *)
Definition quiet (p : OnTypeRenameProvider) : OnTypeRenameProvider :=
  mkProvider (fun model position tk =>
    match provideOnTypeRenameRanges p model position tk with
    | Returns (Fulfilled value) => Returns (Fulfilled value)
    | Returns (Rejected _) => Returns (Fulfilled Undefined)
    | Throws err => Throws err
    end).

Definition quietEntry (e : RegistryEntry) : RegistryEntry :=
  mkEntry (applicable e) (score e) (quiet (provider e)).

(** A range with no extent. *)
Definition isCollapsed (r : IRange) : bool :=
  (startLineNumber r =? endLineNumber r) && (startColumn r =? endColumn r).

(** An editor that answers [deltaDecorations] with one handle per
    decoration asked for. *)
Definition oneHandlePerDecoration (editor : ICodeEditor) : Prop :=
  forall old new,
    List.length (deltaDecorations editor old new) = List.length new.

(** The handles held are none, or one per recorded range. *)
Definition handlesMatchRanges (c : OnTypeRenameContribution) : Prop :=
  _currentDecorations c = [] \/
  exists ranges,
    _syncedRanges c = Some ranges /\
    List.length (_currentDecorations c) = List.length ranges.

(** Whether [_run] goes past its guards, lines 126-131. *)
Definition passesGuards (editor : ICodeEditor) (position : option Position)
    (c : OnTypeRenameContribution) : bool :=
  _enabled c &&
  match position with Some _ => true | None => false end &&
  hasModel editor.

(** The calls [_run] makes once past its guards, lines 133-140. *)
Definition startEffects (position : Position) (m : Machine) : list Effect :=
  match _currentRequest (self m) with
  | Some r => [CancelRequest r]
  | None => []
  end ++ [ResolveRanges (List.length (promises m)) position].

(** The errors of the providers asked whose promise rejected, in the order
    they were asked, the first of them at the clock [now]. *)
Definition failuresOf (model : ITextModel) (position : Position)
    (token : TokenTimeline) (now : nat) (asked : list OnTypeRenameProvider)
    : list Error :=
  flat_map
    (fun step =>
       match provideOnTypeRenameRanges (snd step) model position
               (token (fst step)) with
       | Returns (Rejected err) => [err]
       | Returns (Fulfilled _) | Throws _ => []
       end)
    (combine (seq now (List.length asked)) asked).

(** ** The sentences of the specification the code departs from *)

(** An eligible insertion is mirrored to every non-primary range, at the
    mirror's start offset plus the offset relative to the primary range's
    start, and every recorded range is widened by the inserted length. *)
Definition mirrors_every_range (editor : ICodeEditor) (model : ITextModel)
    (m : Machine) (change : IModelContentChange)
    (primary : IRange) (mirrors : list IRange) : Prop :=
  let listener := onDidChangeModelContent editor (mkChangedEvent [change]) in
  let relative :=
    rangeOffset change - getOffsetAt model (getStartPosition primary) in
  map (fun edit =>
         (getOffsetAt model (getStartPosition (edit_range edit)),
          getOffsetAt model (getEndPosition (edit_range edit)),
          edit_text edit))
      (executedEdits (effectsOf listener m))
  = map (fun mirror =>
         (getOffsetAt model (getStartPosition mirror) + relative,
          getOffsetAt model (getStartPosition mirror) + relative,
          text change))
      mirrors
  /\ exists adjusted,
       _syncedRanges (self (snd (listener m))) = Some adjusted /\
       Forall2
         (fun before after =>
            width model after
            = width model before + Z.of_nat (String.length (text change)))
         (primary :: mirrors) adjusted.

(** An edit that is not mirrorable, arriving while synced, clears the range
    set and the decorations and mutates nothing. *)
Definition clears_when_not_mirrorable (editor : ICodeEditor) (m : Machine)
    (e : IModelContentChangedEvent) : Prop :=
  isSynced (self m) = true ->
  mirrorable e (self m) = false ->
  let listener := onDidChangeModelContent editor e in
  rangeSetAbsent (self (snd (listener m))) = true /\
  _currentDecorations (self (snd (listener m))) = [] /\
  executedEdits (effectsOf listener m) = [].

(** A token cancelled once [asked] providers have been asked makes the
    resolver stop: no result, and no further provider is asked. *)
Definition stops_when_cancelled (registry : LanguageFeatureRegistry)
    (model : ITextModel) (position : Position) (token : TokenTimeline)
    (asked : nat) : Prop :=
  (forall n, isCancellationRequested (token n) = (asked <=? n)%nat) ->
  snd (getOnTypeRenameRanges registry model position token) = Fulfilled Null /\
  (List.length
     (invoked (fst (getOnTypeRenameRanges registry model position token)))
   <= asked)%nat.

(** Disabling the feature cancels the pending resolution, clears the range
    set and the decorations, and leaves the controller idle. *)
Definition disable_resets (editor : ICodeEditor) (m : Machine) : Prop :=
  getOption_autoRename editor = false ->
  let listener := onDidChangeConfiguration editor true in
  (forall r, isPending (snd (listener m)) r = false) /\
  rangeSetAbsent (self (snd (listener m))) = true /\
  _currentDecorations (self (snd (listener m))) = [] /\
  In (_currentDecorations (self m), [])
     (decorationCalls (effectsOf listener m)).

(** Once the option is off, a single pure insertion at a position in the
    span of the first of at least two recorded ranges is still mirrored. *)
Definition mirrors_inside_span_when_disabled (editor later : ICodeEditor)
    (m : Machine) (change : IModelContentChange) : Prop :=
  forall primary second rest,
    _syncedRanges (self m) = Some (primary :: second :: rest) ->
    getOption_autoRename editor = false ->
    rangeLength change = 0 ->
    containsPosition primary (getStartPosition (range change)) = true ->
    executedEdits
      (effectsOf (onDidChangeModelContent later (mkChangedEvent [change]))
         (snd (onDidChangeConfiguration editor true m)))
    <> [].

(** ** Sample documents, editors and providers *)

Module Sample.

(** A document of lines eighty characters apart. *)
Definition model : ITextModel :=
  mkModel (fun p => (lineNumber p - 1) * 80 + (column p - 1))
          (fun _ => None).

Definition handles (old : list string) (new : list IModelDeltaDecoration)
    : list string :=
  map (fun _ => "decoration") new.

Definition editor : ICodeEditor :=
  mkEditor (Some model) (Some (mkPosition 1 7)) true handles.

(** The same editor with the option switched off. *)
Definition editorDisabled : ICodeEditor :=
  mkEditor (Some model) (Some (mkPosition 1 7)) false handles.

Definition primary : IRange := mkRange 1 5 1 10.
Definition mirror : IRange := mkRange 5 2 5 7.
Definition third : IRange := mkRange 9 3 9 8.

(** Typing ["x"] at line 1, column 7. *)
Definition insertion : IModelContentChange :=
  mkChange (mkRange 1 7 1 7) 6 0 "x".

(** Removing the character at line 1, column 7. *)
Definition deletion : IModelContentChange :=
  mkChange (mkRange 1 7 1 8) 6 1 "".

Definition synced (ranges : list IRange) : Machine :=
  mkMachine (mkContribution true None ["decoration"; "decoration"] (Some ranges))
            [] [].

(** Synced on two ranges while request 0 is still pending. *)
Definition syncedAndResolving : Machine :=
  mkMachine
    (mkContribution true (Some 0%nat) ["decoration"; "decoration"]
       (Some [primary; mirror]))
    [Pending] [].

Definition answers (result : Settled RangesResult) : OnTypeRenameProvider :=
  mkProvider (fun _ _ _ => Returns result).

(** A provider that throws when it is called. *)
Definition throwing : OnTypeRenameProvider :=
  mkProvider (fun _ _ _ => Throws (ExternalError "provider threw")).

(** A document of nine lines of twenty characters.  Positions outside it
    are clamped, as an editor validates them. *)
Definition clamped : ITextModel :=
  mkModel
    (fun p =>
       (Z.max 1 (Z.min 9 (lineNumber p)) - 1) * 21
       + (Z.max 1 (Z.min 21 (column p)) - 1))
    (fun _ => None).

Definition clampedEditor : ICodeEditor :=
  mkEditor (Some clamped) (Some (mkPosition 1 7)) true handles.

(** A first range over three lines. *)
Definition block : IRange := mkRange 1 5 3 12.

(** Typing ["x"] at line 2, column 3, a position in the span of [block]. *)
Definition insertionInBlock : IModelContentChange :=
  mkChange (mkRange 2 3 2 3) 82 0 "x".

Definition entry (priority : Z) (p : OnTypeRenameProvider) : RegistryEntry :=
  mkEntry (fun _ => true) (fun _ => priority) p.

Definition empty : OnTypeRenameProvider := answers (Fulfilled (Ranges [])).
Definition failing : OnTypeRenameProvider :=
  answers (Rejected (ExternalError "provider failed")).
Definition good : OnTypeRenameProvider :=
  answers (Fulfilled (Ranges [primary; mirror])).
Definition other : OnTypeRenameProvider :=
  answers (Fulfilled (Ranges [third])).

(** Cancelled from the second provider on. *)
Definition cancelledAfterFirst : TokenTimeline :=
  fun n => mkToken (1 <=? n)%nat.

End Sample.

(** * Properties *)

(** ** Lists, traces and the table of promises *)

Lemma skipn_length_app {A} (l k : list A) : skipn (List.length l) (l ++ k) = k.
Proof.
  induction l as [|x l IH]; simpl; auto.
Qed.



Lemma length_setNth {A} (l : list A) n x :
  List.length (setNth n x l) = List.length l.
Proof.
  revert n; induction l as [|h t IH]; intros [|n]; simpl; auto.
Qed.


(** ** The content listener *)

Lemma effectsOf_trace {A} (c : M A) m effects :
  trace (snd (c m)) = (trace m ++ effects)%list -> effectsOf c m = effects.
Proof.
  intros H. unfold effectsOf. rewrite H. apply skipn_length_app.
Qed.

Lemma effectsOf_logged {A} (c : M A) m r effects :
  c m = (r, logged m effects) -> effectsOf c m = effects.
Proof.
  intros H. unfold effectsOf. rewrite H. simpl. apply skipn_length_app.
Qed.

(** What the listener does, case by case: nothing without a model; for a
    change it classifies as mirrorable, one edit for the second recorded
    range, or a [TypeError] when there is no second range; otherwise only
    its two log lines. *)
Lemma onDidChangeModelContent_cases editor e m :
  onDidChangeModelContent editor e m =
  match getModel editor with
  | None => (Normal tt, m)
  | Some model =>
    if mirrorable e (self m) then
      match changes e, _syncedRanges (self m) with
      | [change], Some (primary :: second :: _) =>
        (Normal tt,
         logged m
           [ConsoleLog "buffer changed!";
            ExecuteEdits "foo" [mirroredEdit model change primary second];
            ConsoleLogRanges
              (map (getDecorationRange model) (_currentDecorations (self m)))])
      | _, _ =>
        (Throw (TypeError "Cannot read property 'startLineNumber' of undefined"),
         logged m [ConsoleLog "buffer changed!"])
      end
    else
      (Normal tt,
       logged m
         [ConsoleLog "buffer changed!";
          ConsoleLogRanges
            (map (getDecorationRange model) (_currentDecorations (self m)))])
  end.
Proof.
  unfold onDidChangeModelContent, mirrorable.
  destruct (getModel editor) as [model|]; [|reflexivity].
  unfold bind, emit, this, ret, throw, rangeAt, logged, mirroredEdit,
    collapsedAt, getStartPosition.
  destruct (changes e) as [|change [|? ?]]; simpl;
    try (destruct (_syncedRanges (self m)); rewrite <- app_assoc; reflexivity).
  destruct (rangeLength change =? 0); simpl;
    destruct (_syncedRanges (self m)) as [[|primary [|second rest]]|]; simpl;
    try (rewrite <- app_assoc; reflexivity);
    destruct (isWithin (range change) primary); simpl;
    rewrite <- ?app_assoc; reflexivity.
Qed.

Ltac bool_to_prop :=
  repeat match goal with
  | H : _ && _ = true |- _ => apply andb_true_iff in H; destruct H
  | H : (_ <=? _) = true |- _ => apply Z.leb_le in H
  | H : (_ >=? _) = true |- _ => rewrite Z.geb_leb in H; apply Z.leb_le in H
  | H : (_ =? _) = true |- _ => apply Z.eqb_eq in H
  end.

(** A range that [isWithin] accepts, and whose start is not after its end,
    starts at a position of the outer range's span, both ends included. *)
Lemma isWithin_containsPosition inner outer :
  isWithin inner outer = true ->
  isWellFormed inner = true ->
  containsPosition outer (getStartPosition inner) = true.
Proof.
  unfold isWithin, containsPosition, isWellFormed, isBeforeOrEqual,
    getStartPosition, getEndPosition; simpl.
  intros H Hwf. bool_to_prop.
  apply orb_true_iff in Hwf.
  rewrite Z.ltb_lt, andb_true_iff, Z.eqb_eq, Z.leb_le in Hwf.
  apply andb_true_iff; split; apply orb_true_iff.
  - destruct (Z.eq_dec (startLineNumber outer) (startLineNumber inner)) as [E|E].
    + right. apply andb_true_iff; split; [apply Z.eqb_eq|apply Z.leb_le]; lia.
    + left. apply Z.ltb_lt; lia.
  - destruct (Z.eq_dec (startLineNumber inner) (endLineNumber outer)) as [E|E].
    + right. apply andb_true_iff; split; [apply Z.eqb_eq|apply Z.leb_le]; lia.
    + left. apply Z.ltb_lt; lia.
Qed.

Lemma mirrorable_eligible e c :
  Forall (fun change => isWellFormed (range change) = true) (changes e) ->
  mirrorable e c = true -> eligible e c = true.
Proof.
  unfold mirrorable, eligible. intros Hwf.
  destruct (changes e) as [|change [|? ?]]; try discriminate.
  destruct (_syncedRanges c) as [[|primary rest]|]; try discriminate.
  intros H. apply andb_true_iff in H. destruct H as [Hlen Hin].
  rewrite Hlen. simpl. apply isWithin_containsPosition; auto.
  inversion Hwf; auto.
Qed.

Lemma not_mirrorable_effects editor e m :
  mirrorable e (self m) = false ->
  onDidChangeModelContent editor e m = (Normal tt, m) \/
  exists model,
    getModel editor = Some model /\
    onDidChangeModelContent editor e m =
    (Normal tt,
     logged m
       [ConsoleLog "buffer changed!";
        ConsoleLogRanges
          (map (getDecorationRange model) (_currentDecorations (self m)))]).
Proof.
  intros H. rewrite onDidChangeModelContent_cases, H.
  destruct (getModel editor) as [model|]; [right; exists model|left]; auto.
Qed.

Lemma effectsOf_unchanged {A} (c : M A) m r :
  c m = (r, m) -> effectsOf c m = [].
Proof.
  intros H. unfold effectsOf. rewrite H. simpl.
  rewrite <- (app_nil_r (trace m)) at 2. apply skipn_length_app.
Qed.

(** Where offsets advance by one per column between two columns of a line,
    the offset of the second is that of the first plus the distance. *)
Lemma columnsAdvanceBetween_offset model line from distance :
  0 <= distance ->
  columnsAdvanceBetween model line from (from + distance) ->
  getOffsetAt model (mkPosition line (from + distance))
  = getOffsetAt model (mkPosition line from) + distance.
Proof.
  intros Hpos. pattern distance. apply natlike_ind; [| |exact Hpos].
  - intros _. rewrite !Z.add_0_r. reflexivity.
  - intros d Hd IH Hadv.
    replace (from + Z.succ d) with ((from + d) + 1) by lia.
    rewrite Hadv by lia. rewrite IH; [lia|].
    intros col Hcol. apply Hadv. lia.
Qed.

(** C1, as the code has it.  With at least two recorded ranges, a single pure
    insertion that [isWithin] places in the first range makes the listener
    hand exactly one edit to the editor: the same text, at the start line of
    the second recorded range and at its start column plus the offset of the
    insertion relative to the start of the first range.  No other range
    receives an edit, and the contribution's fields, the recorded ranges
    among them, are what they were.  Where the relative offset is not
    negative and the columns from the start of the second range up to the
    edit are columns of its line, offsets advancing by one per column, the
    edit is at the offset of the second range's start plus the relative
    offset. *)
Theorem insertion_mirrored_into_second_range
    editor model m change primary second rest :
  getModel editor = Some model ->
  _syncedRanges (self m) = Some (primary :: second :: rest) ->
  rangeLength change = 0 ->
  isWithin (range change) primary = true ->
  let listener := onDidChangeModelContent editor (mkChangedEvent [change]) in
  let relative :=
    rangeOffset change - getOffsetAt model (getStartPosition primary) in
  let target :=
    mkPosition (startLineNumber second) (startColumn second + relative) in
  fst (listener m) = Normal tt /\
  executedEdits (effectsOf listener m)
  = [mkEdit (collapsedAt target) (text change)] /\
  decorationCalls (effectsOf listener m) = [] /\
  self (snd (listener m)) = self m /\
  isSynced (self (snd (listener m))) = true /\
  (0 <= relative ->
   columnsAdvanceBetween model (startLineNumber second)
     (startColumn second) (startColumn second + relative) ->
   getOffsetAt model target
   = getOffsetAt model (getStartPosition second) + relative).
Proof.
  intros Hmodel Hranges Hlen Hin listener relative target.
  assert (Hm : mirrorable (mkChangedEvent [change]) (self m) = true).
  { unfold mirrorable; simpl. rewrite Hranges, Hlen, Hin. reflexivity. }
  pose proof (onDidChangeModelContent_cases editor (mkChangedEvent [change]) m)
    as Hc.
  rewrite Hmodel, Hm, Hranges in Hc. simpl in Hc. fold listener in Hc.
  rewrite (effectsOf_logged _ _ _ _ Hc), Hc. simpl.
  repeat split; auto.
  - unfold isSynced. rewrite Hranges. reflexivity.
  - intros Hpos Hadv. apply columnsAdvanceBetween_offset; assumption.
Qed.

(** The insertion of the specification's example, ["x"] typed at line 1,
    column 7, with ranges recorded on lines 1 and 5, in a document of nine
    lines of twenty characters: the edit is at line 5, column 4, two
    characters after the start of the second range. *)
Lemma insertion_mirrored_into_second_range_witness :
  executedEdits
    (effectsOf
       (onDidChangeModelContent Sample.clampedEditor
          (mkChangedEvent [Sample.insertion]))
       (Sample.synced [Sample.primary; Sample.mirror]))
  = [mkEdit (mkRange 5 4 5 4) "x"] /\
  getOffsetAt Sample.clamped (mkPosition 5 4)
  = getOffsetAt Sample.clamped (mkPosition 5 2) + 2.
Proof.
  pose proof
    (insertion_mirrored_into_second_range Sample.clampedEditor Sample.clamped
       (Sample.synced [Sample.primary; Sample.mirror]) Sample.insertion
       Sample.primary Sample.mirror [] eq_refl eq_refl eq_refl eq_refl)
    as H.
  cbv zeta in H.
  destruct H as [_ [Hedits [_ [_ [_ Hoffset]]]]].
  split.
  - exact Hedits.
  - apply Hoffset.
    + vm_compute. discriminate.
    + intros col Hcol.
      cbv [Sample.clamped Sample.primary Sample.mirror Sample.insertion
           getOffsetAt getStartPosition startLineNumber startColumn
           rangeOffset lineNumber column] in Hcol |- *.
      lia.
Defined.

(** With three recorded ranges only the second receives the insertion, and
    no recorded range is widened. *)
Lemma mirrors_every_range_counterexample :
  ~ mirrors_every_range Sample.editor Sample.model
      (Sample.synced [Sample.primary; Sample.mirror; Sample.third])
      Sample.insertion Sample.primary [Sample.mirror; Sample.third].
Proof.
  intros [Hedits _]. vm_compute in Hedits. discriminate Hedits.
Qed.

(** The ranges recorded for the specification's example are as wide after
    the insertion as before. *)
Lemma recorded_ranges_not_widened :
  ~ mirrors_every_range Sample.editor Sample.model
      (Sample.synced [Sample.primary; Sample.mirror])
      Sample.insertion Sample.primary [Sample.mirror].
Proof.
  intros [_ [adjusted [Hranges Hwidth]]].
  vm_compute in Hranges. injection Hranges as <-.
  inversion Hwidth as [|? ? ? ? Hfirst _]; subst.
  vm_compute in Hfirst. discriminate Hfirst.
Qed.

Lemma executedEdits_mirrorable editor e m :
  executedEdits (effectsOf (onDidChangeModelContent editor e) m) <> [] ->
  mirrorable e (self m) = true.
Proof.
  intros Hedits. destruct (mirrorable e (self m)) eqn:Hm; auto.
  exfalso. apply Hedits.
  destruct (not_mirrorable_effects editor e m Hm) as [H|[model [_ H]]].
  - rewrite (effectsOf_unchanged _ _ _ H). reflexivity.
  - rewrite (effectsOf_logged _ _ _ _ H). reflexivity.
Qed.

(** C2.  Whatever the event and the state, the listener hands an edit to the
    editor only if the event holds exactly one change, that change removes
    no character, and its position lies in the span of the first recorded
    range, both boundaries included; an event that fails one of the three
    leads to no edit.  Ranges of changes are taken as the editor reports
    them, start not after end. *)
Theorem mirrored_only_if_eligible editor e m :
  Forall (fun change => isWellFormed (range change) = true) (changes e) ->
  let listener := onDidChangeModelContent editor e in
  (executedEdits (effectsOf listener m) <> [] ->
   exists change primary rest,
     changes e = [change] /\
     rangeLength change = 0 /\
     _syncedRanges (self m) = Some (primary :: rest) /\
     containsPosition primary (getStartPosition (range change)) = true) /\
  (eligible e (self m) = false -> executedEdits (effectsOf listener m) = []).
Proof.
  intros Hwf listener. split.
  - intros Hedits.
    pose proof (executedEdits_mirrorable editor e m Hedits) as Hm.
    pose proof (mirrorable_eligible e (self m) Hwf Hm) as He.
    unfold eligible in He.
    destruct (changes e) as [|change [|? ?]]; try discriminate.
    destruct (_syncedRanges (self m)) as [[|primary rest]|]; try discriminate.
    apply andb_true_iff in He. destruct He as [Hlen Hin].
    exists change, primary, rest. repeat split; auto.
    apply Z.eqb_eq; exact Hlen.
  - intros Hne.
    destruct (executedEdits (effectsOf listener m)) as [|edit edits] eqn:Hedits; auto.
    assert (Hm : mirrorable e (self m) = true).
    { apply (executedEdits_mirrorable editor). fold listener.
      rewrite Hedits. discriminate. }
    rewrite (mirrorable_eligible e (self m) Hwf Hm) in Hne. discriminate.
Qed.

(** The insertion of the specification's example is mirrored and meets the
    three conditions; a deletion inside the first range leads to no edit. *)
Lemma mirrored_only_if_eligible_witness :
  (exists change primary rest,
     [Sample.insertion] = [change] /\
     rangeLength change = 0 /\
     Some [Sample.primary; Sample.mirror] = Some (primary :: rest) /\
     containsPosition primary (getStartPosition (range change)) = true) /\
  executedEdits
    (effectsOf
       (onDidChangeModelContent Sample.editor (mkChangedEvent [Sample.deletion]))
       (Sample.synced [Sample.primary; Sample.mirror]))
  = [].
Proof.
  split.
  - refine (proj1
      (mirrored_only_if_eligible Sample.editor
         (mkChangedEvent [Sample.insertion])
         (Sample.synced [Sample.primary; Sample.mirror]) _) _).
    + repeat constructor.
    + vm_compute. discriminate.
  - refine (proj2
      (mirrored_only_if_eligible Sample.editor
         (mkChangedEvent [Sample.deletion])
         (Sample.synced [Sample.primary; Sample.mirror]) _) _).
    + repeat constructor.
    + reflexivity.
Defined.

(** C3, as the code has it.  An event the listener does not classify as
    mirrorable (more than one change, a change that removes characters, no
    recorded range, or a change that [isWithin] rejects) leads to no edit and
    to no decoration call, and leaves every field of the contribution as it
    was: a range set that was recorded stays recorded. *)
Theorem not_mirrorable_changes_nothing editor e m :
  mirrorable e (self m) = false ->
  let listener := onDidChangeModelContent editor e in
  fst (listener m) = Normal tt /\
  executedEdits (effectsOf listener m) = [] /\
  decorationCalls (effectsOf listener m) = [] /\
  self (snd (listener m)) = self m /\
  promises (snd (listener m)) = promises m /\
  isSynced (self (snd (listener m))) = isSynced (self m).
Proof.
  intros Hm listener.
  destruct (not_mirrorable_effects editor e m Hm) as [H|[model [_ H]]];
    fold listener in H.
  - rewrite (effectsOf_unchanged _ _ _ H), H. simpl. repeat split; reflexivity.
  - rewrite (effectsOf_logged _ _ _ _ H), H. simpl. repeat split; reflexivity.
Qed.

Lemma not_mirrorable_changes_nothing_witness :
  self
    (snd (onDidChangeModelContent Sample.editor
            (mkChangedEvent [Sample.deletion])
            (Sample.synced [Sample.primary; Sample.mirror])))
  = self (Sample.synced [Sample.primary; Sample.mirror]).
Proof.
  refine (proj1 (proj2 (proj2 (proj2
    (not_mirrorable_changes_nothing Sample.editor
       (mkChangedEvent [Sample.deletion])
       (Sample.synced [Sample.primary; Sample.mirror]) _))))).
  reflexivity.
Defined.

(** After a deletion in the synced state the two ranges are still
    recorded. *)
Lemma clears_when_not_mirrorable_counterexample :
  ~ clears_when_not_mirrorable Sample.editor
      (Sample.synced [Sample.primary; Sample.mirror])
      (mkChangedEvent [Sample.deletion]).
Proof.
  intros H. destruct (H eq_refl eq_refl) as [Habsent _].
  vm_compute in Habsent. discriminate Habsent.
Qed.

(** C9.  With a single recorded range, an insertion inside that range makes
    the listener throw a [TypeError]: it reads the start line of a second
    range that is not there. *)
Theorem singleton_range_set_throws :
  fst (onDidChangeModelContent Sample.editor
         (mkChangedEvent [Sample.insertion])
         (Sample.synced [Sample.primary]))
  = Throw (TypeError "Cannot read property 'startLineNumber' of undefined").
Proof.
  reflexivity.
Qed.

(** The same for every singleton range set and every insertion that
    [isWithin] places in its range. *)
Lemma every_singleton_range_set_throws editor model m change primary :
  getModel editor = Some model ->
  _syncedRanges (self m) = Some [primary] ->
  rangeLength change = 0 ->
  isWithin (range change) primary = true ->
  fst (onDidChangeModelContent editor (mkChangedEvent [change]) m)
  = Throw (TypeError "Cannot read property 'startLineNumber' of undefined").
Proof.
  intros Hmodel Hranges Hlen Hin.
  rewrite onDidChangeModelContent_cases, Hmodel.
  unfold mirrorable; simpl. rewrite Hranges, Hlen, Hin. reflexivity.
Qed.

(** ** Configuration changes *)

(** What [_stopAll] does: one decoration call with an empty target set; the
    handles it returns replace the current ones and nothing else changes. *)
Lemma _stopAll_result editor m :
  _stopAll editor m =
  (Normal tt,
   mkMachine
     (set_currentDecorations
        (deltaDecorations editor (_currentDecorations (self m)) []) (self m))
     (promises m)
     (trace m ++ [DeltaDecorations (_currentDecorations (self m)) []])).
Proof. reflexivity. Qed.

(** What switching the option off does. *)
Lemma disable_result editor m :
  getOption_autoRename editor = false ->
  onDidChangeConfiguration editor true m =
  (Normal tt,
   mkMachine
     (mkContribution false (_currentRequest (self m))
        (deltaDecorations editor (_currentDecorations (self m)) [])
        (_syncedRanges (self m)))
     (promises m)
     (trace m ++ [DeltaDecorations (_currentDecorations (self m)) []])).
Proof.
  intros Hoff. unfold onDidChangeConfiguration, bind, update, _run, this.
  rewrite _stopAll_result. simpl. rewrite Hoff. reflexivity.
Qed.

(** C8, as the code has it.  When the option is switched off, in any state,
    the listener records the flag, makes one decoration call with the
    current handles and an empty target set, keeps the handles the editor
    answers with (none, for an editor that gives a handle per decoration),
    starts no resolution and makes no edit.  The recorded range set is not
    touched. *)
Theorem disabling_clears_decorations_only editor m :
  getOption_autoRename editor = false ->
  deltaDecorations editor (_currentDecorations (self m)) [] = [] ->
  let listener := onDidChangeConfiguration editor true in
  fst (listener m) = Normal tt /\
  _enabled (self (snd (listener m))) = false /\
  decorationCalls (effectsOf listener m)
  = [(_currentDecorations (self m), [])] /\
  _currentDecorations (self (snd (listener m))) = [] /\
  _syncedRanges (self (snd (listener m))) = _syncedRanges (self m) /\
  resolutionsStarted (effectsOf listener m) = [] /\
  executedEdits (effectsOf listener m) = [].
Proof.
  intros Hoff Hhandles listener.
  pose proof (disable_result editor m Hoff) as H. fold listener in H.
  assert (He : effectsOf listener m
               = [DeltaDecorations (_currentDecorations (self m)) []]).
  { apply effectsOf_trace. rewrite H. reflexivity. }
  rewrite He, H. simpl. rewrite Hhandles. repeat split; reflexivity.
Qed.

Lemma disabling_clears_decorations_only_witness :
  decorationCalls
    (effectsOf (onDidChangeConfiguration Sample.editorDisabled true)
       Sample.syncedAndResolving)
  = [(["decoration"; "decoration"], [])].
Proof.
  refine (proj1 (proj2 (proj2
    (disabling_clears_decorations_only Sample.editorDisabled
       Sample.syncedAndResolving _ _)))).
  - reflexivity.
  - reflexivity.
Defined.

(** Switching the option off while synced, with a resolution pending: the
    two ranges stay recorded. *)
Lemma disable_resets_counterexample :
  ~ disable_resets Sample.editorDisabled Sample.syncedAndResolving.
Proof.
  intros H. destruct (H eq_refl) as [_ [Habsent _]].
  vm_compute in Habsent. discriminate Habsent.
Qed.

(** The resolution that was pending is still pending. *)
Lemma disable_leaves_request_pending :
  isPending
    (snd (onDidChangeConfiguration Sample.editorDisabled true
            Sample.syncedAndResolving)) 0
  = true.
Proof. reflexivity. Qed.

(** C10, as the code has it.  The content listener reads the recorded range
    set and never the
    enabled flag, and [_stopAll] replaces the decoration handles and leaves
    the recorded range set alone.  So with at least two ranges recorded, once
    the option has been switched off, a single pure insertion that
    [isWithin] places in the first range is still mirrored into the
    second. *)
Theorem mirroring_survives_disabling
    editor later model m change primary second rest :
  _syncedRanges (self m) = Some (primary :: second :: rest) ->
  getOption_autoRename editor = false ->
  getModel later = Some model ->
  rangeLength change = 0 ->
  isWithin (range change) primary = true ->
  let disabled := snd (onDidChangeConfiguration editor true m) in
  let listener := onDidChangeModelContent later (mkChangedEvent [change]) in
  _syncedRanges (self (snd (_stopAll editor m))) = _syncedRanges (self m) /\
  _enabled (self disabled) = false /\
  _syncedRanges (self disabled) = Some (primary :: second :: rest) /\
  executedEdits (effectsOf listener disabled)
  = [mirroredEdit model change primary second] /\
  (forall flag,
     executedEdits
       (effectsOf listener
          (mkMachine (set_enabled flag (self m)) (promises m) (trace m)))
     = [mirroredEdit model change primary second]).
Proof.
  intros Hranges Hoff Hmodel Hlen Hin disabled listener.
  assert (Hedits : forall m',
            _syncedRanges (self m') = Some (primary :: second :: rest) ->
            executedEdits (effectsOf listener m')
            = [mirroredEdit model change primary second]).
  { intros m' Hranges'.
    pose proof (onDidChangeModelContent_cases later (mkChangedEvent [change]) m')
      as Hc.
    assert (Hm : mirrorable (mkChangedEvent [change]) (self m') = true).
    { unfold mirrorable; simpl. rewrite Hranges', Hlen, Hin. reflexivity. }
    rewrite Hmodel, Hm, Hranges' in Hc. simpl in Hc. fold listener in Hc.
    rewrite (effectsOf_logged _ _ _ _ Hc). reflexivity. }
  assert (Hd : self disabled
               = mkContribution false (_currentRequest (self m))
                   (deltaDecorations editor (_currentDecorations (self m)) [])
                   (_syncedRanges (self m))).
  { unfold disabled. rewrite (disable_result editor m Hoff). reflexivity. }
  repeat split.
  - rewrite Hd. reflexivity.
  - rewrite Hd. simpl. exact Hranges.
  - apply Hedits. rewrite Hd. simpl. exact Hranges.
  - intros flag. apply Hedits. simpl. exact Hranges.
Qed.

Lemma mirroring_survives_disabling_witness :
  executedEdits
    (effectsOf
       (onDidChangeModelContent Sample.editorDisabled
          (mkChangedEvent [Sample.insertion]))
       (snd (onDidChangeConfiguration Sample.editorDisabled true
               (Sample.synced [Sample.primary; Sample.mirror]))))
  = [mkEdit (mkRange 5 4 5 4) "x"].
Proof.
  refine (proj1 (proj2 (proj2 (proj2
    (mirroring_survives_disabling Sample.editorDisabled Sample.editorDisabled
       Sample.model (Sample.synced [Sample.primary; Sample.mirror])
       Sample.insertion Sample.primary Sample.mirror [] _ _ _ _ _))))).
  all: reflexivity.
Defined.

(** A first range over lines 1 to 3, from column 5 to column 12, and an
    insertion at line 2, column 3: the position is in the span of the range,
    its column is left of the range's start column, and nothing is
    mirrored. *)
Lemma mirrors_inside_span_when_disabled_counterexample :
  ~ mirrors_inside_span_when_disabled Sample.editorDisabled
      Sample.editorDisabled
      (Sample.synced [Sample.block; Sample.mirror]) Sample.insertionInBlock.
Proof.
  intros H.
  apply (H Sample.block Sample.mirror [] eq_refl eq_refl eq_refl eq_refl).
  reflexivity.
Qed.

(** ** The registry's order *)

Lemma Forall_insertByScore (P : RegistryEntry -> Prop) model e l :
  P e -> Forall P l -> Forall P (insertByScore model e l).
Proof.
  intros He Hl. induction Hl as [|h t Hh Ht IH]; simpl.
  - constructor; auto.
  - destruct (score h model <=? score e model); repeat constructor; auto.
Qed.

Lemma insertByScore_sorted model e l :
  StronglySorted (outranks model) l ->
  StronglySorted (outranks model) (insertByScore model e l).
Proof.
  intros Hl. induction Hl as [|h t Ht IH Hh]; simpl.
  - constructor; constructor.
  - destruct (score h model <=? score e model) eqn:Hcmp.
    + apply Z.leb_le in Hcmp. constructor.
      * constructor; auto.
      * constructor; [exact Hcmp|].
        eapply Forall_impl; [|exact Hh]. unfold outranks. intros; lia.
    + apply Z.leb_gt in Hcmp. constructor; auto.
      apply Forall_insertByScore; auto. unfold outranks. lia.
Qed.

Lemma sortByScore_sorted model l :
  StronglySorted (outranks model) (sortByScore model l).
Proof.
  induction l as [|e l IH]; simpl.
  - constructor.
  - apply insertByScore_sorted; exact IH.
Qed.

Lemma insertByScore_permutation model e l :
  Permutation (e :: l) (insertByScore model e l).
Proof.
  induction l as [|h t IH]; simpl; auto.
  destruct (score h model <=? score e model); auto.
  eapply perm_trans; [apply perm_swap|]. constructor. exact IH.
Qed.

Lemma sortByScore_permutation model l :
  Permutation l (sortByScore model l).
Proof.
  induction l as [|e l IH]; simpl; auto.
  eapply perm_trans; [|apply insertByScore_permutation]. constructor. exact IH.
Qed.

(** Entries of equal score keep their registration order. *)
Lemma insertByScore_stable model s e l :
  filter (fun x => score x model =? s) (insertByScore model e l)
  = filter (fun x => score x model =? s) (e :: l).
Proof.
  induction l as [|h t IH]; simpl; auto.
  destruct (score h model <=? score e model) eqn:Hcmp; simpl; auto.
  apply Z.leb_gt in Hcmp. simpl in IH. rewrite IH.
  destruct (score h model =? s) eqn:Hh; destruct (score e model =? s) eqn:He;
    auto.
  apply Z.eqb_eq in Hh, He. lia.
Qed.

Lemma sortByScore_stable model s l :
  filter (fun x => score x model =? s) (sortByScore model l)
  = filter (fun x => score x model =? s) l.
Proof.
  induction l as [|e l IH]; simpl; auto.
  rewrite insertByScore_stable. simpl. rewrite IH. reflexivity.
Qed.

Lemma sortByScore_quiet model l :
  sortByScore model (map quietEntry l) = map quietEntry (sortByScore model l).
Proof.
  induction l as [|e l IH]; simpl; auto.
  rewrite IH. generalize (sortByScore model l) as sorted.
  induction sorted as [|h t IHt]; simpl; auto.
  destruct (score h model <=? score e model); simpl; auto.
  rewrite IHt. reflexivity.
Qed.

Lemma ordered_quiet registry model :
  ordered (map quietEntry registry) model = map quiet (ordered registry model).
Proof.
  unfold ordered, orderedEntries.
  assert (Hf : filter (fun e => applicable e model) (map quietEntry registry)
               = map quietEntry (filter (fun e => applicable e model) registry)).
  { induction registry as [|e l IH]; simpl; auto.
    destruct (applicable e model); simpl; rewrite IH; reflexivity. }
  rewrite Hf, sortByScore_quiet, !map_map. reflexivity.
Qed.

(** ** The resolver's chain *)

Section Chain.

Variable model : ITextModel.
Variable position : Position.
Variable token : TokenTimeline.

Lemma resolveFrom_nil now :
  resolveFrom model position token [] now = ([], Fulfilled Null).
Proof. reflexivity. Qed.

(** One step of the chain.  A provider that throws ends the chain with its
    error, unreported.  Of one that returns, a good answer ends the chain
    and any other answer, a rejected promise included, hands over to the
    next provider. *)
Lemma resolveFrom_cons p ps now :
  resolveFrom model position token (p :: ps) now =
  match provideOnTypeRenameRanges p model position (token now) with
  | Throws err => ([Provide p (token now)], Rejected err)
  | Returns promise =>
    let effects :=
      Provide p (token now) ::
      match promise with
      | Fulfilled _ => []
      | Rejected err => [ReportUnexpectedExternalError err]
      end in
    if isNonEmptyArray (answer model position (token now) p)
    then (effects, Fulfilled (answer model position (token now) p))
    else (effects ++ fst (resolveFrom model position token ps (S now)),
          snd (resolveFrom model position token ps (S now)))
  end.
Proof.
  unfold resolveFrom, answer. simpl.
  unfold providerTask at 1.
  destruct (provideOnTypeRenameRanges p model position (token now))
    as [[value|err]|err]; simpl.
  - destruct (isNonEmptyArray value); auto.
    destruct (first _ _ _ _); reflexivity.
  - destruct (first _ _ _ _); reflexivity.
  - reflexivity.
Qed.

Lemma invoked_app a b : invoked (a ++ b) = invoked a ++ invoked b.
Proof.
  induction a as [|[p tk|err] a IH]; simpl; auto. rewrite IH; reflexivity.
Qed.

Lemma reported_app a b : reported (a ++ b) = reported a ++ reported b.
Proof.
  induction a as [|[p tk|err] a IH]; simpl; auto. rewrite IH; reflexivity.
Qed.

Lemma tokensPassed_app a b :
  tokensPassed (a ++ b) = tokensPassed a ++ tokensPassed b.
Proof.
  induction a as [|[p tk|err] a IH]; simpl; auto. rewrite IH; reflexivity.
Qed.

Lemma invoked_call p tk (promise : Settled RangesResult) :
  invoked
    (Provide p tk ::
     match promise with
     | Fulfilled _ => []
     | Rejected err => [ReportUnexpectedExternalError err]
     end) = [p].
Proof.
  destruct promise; reflexivity.
Qed.

(** What the chain does with the head of the list, by the three kinds of
    outcome. *)
Lemma resolveFrom_good p ps now :
  isGood (provideOnTypeRenameRanges p model position (token now)) = true ->
  snd (resolveFrom model position token (p :: ps) now)
  = Fulfilled (answer model position (token now) p) /\
  invoked (fst (resolveFrom model position token (p :: ps) now)) = [p] /\
  reported (fst (resolveFrom model position token (p :: ps) now)) = [].
Proof.
  intros Hgood. rewrite resolveFrom_cons. unfold answer.
  destruct (provideOnTypeRenameRanges p model position (token now))
    as [[value|err]|err]; try discriminate Hgood.
  simpl in Hgood. cbv zeta. rewrite Hgood. repeat split.
Qed.

Lemma resolveFrom_nothing p ps now :
  yieldsNothing (provideOnTypeRenameRanges p model position (token now))
  = true ->
  snd (resolveFrom model position token (p :: ps) now)
  = snd (resolveFrom model position token ps (S now)) /\
  invoked (fst (resolveFrom model position token (p :: ps) now))
  = p :: invoked (fst (resolveFrom model position token ps (S now))) /\
  reported (fst (resolveFrom model position token (p :: ps) now))
  = failuresOf model position token now [p]
    ++ reported (fst (resolveFrom model position token ps (S now))).
Proof.
  intros Hnothing. rewrite resolveFrom_cons. unfold answer, failuresOf.
  simpl.
  destruct (provideOnTypeRenameRanges p model position (token now))
    as [[value|err]|err]; try discriminate Hnothing; simpl in *.
  - apply negb_true_iff in Hnothing. rewrite Hnothing. repeat split.
  - repeat split.
Qed.

Lemma resolveFrom_throwing p ps now err :
  provideOnTypeRenameRanges p model position (token now) = Throws err ->
  resolveFrom model position token (p :: ps) now
  = ([Provide p (token now)], Rejected err).
Proof.
  intros Hthrows. rewrite resolveFrom_cons, Hthrows. reflexivity.
Qed.

Lemma outcome_cases (outcome : ProviderCall) :
  isGood outcome = true \/ yieldsNothing outcome = true \/
  exists err, outcome = Throws err.
Proof.
  destruct outcome as [[value|err]|err]; simpl.
  - destruct (isNonEmptyArray value); auto.
  - auto.
  - right. right. exists err. reflexivity.
Qed.

(** The providers asked are an initial segment of the list. *)
Lemma resolveFrom_invoked_prefix ps now :
  invoked (fst (resolveFrom model position token ps now))
  = firstn
      (List.length (invoked (fst (resolveFrom model position token ps now))))
      ps.
Proof.
  revert now. induction ps as [|p ps IH]; intros now.
  - reflexivity.
  - destruct (outcome_cases
                (provideOnTypeRenameRanges p model position (token now)))
      as [Hgood|[Hnothing|[err Hthrows]]].
    + destruct (resolveFrom_good p ps now Hgood) as [_ [Hinv _]].
      rewrite Hinv. reflexivity.
    + destruct (resolveFrom_nothing p ps now Hnothing) as [_ [Hinv _]].
      rewrite Hinv. simpl. f_equal. apply IH.
    + rewrite (resolveFrom_throwing p ps now err Hthrows). reflexivity.
Qed.

Lemma failuresOf_cons now p asked :
  failuresOf model position token now (p :: asked)
  = failuresOf model position token now [p]
    ++ failuresOf model position token (S now) asked.
Proof.
  unfold failuresOf. simpl. rewrite app_nil_r. reflexivity.
Qed.

(** The first good answer is the result, and the chain stops there. *)
Lemma resolveFrom_accepts ps now k p :
  nth_error ps k = Some p ->
  isGood (provideOnTypeRenameRanges p model position (token (now + k)%nat))
  = true ->
  (forall j q, (j < k)%nat -> nth_error ps j = Some q ->
     yieldsNothing
       (provideOnTypeRenameRanges q model position (token (now + j)%nat))
     = true) ->
  snd (resolveFrom model position token ps now)
  = Fulfilled (answer model position (token (now + k)%nat) p) /\
  invoked (fst (resolveFrom model position token ps now)) = firstn (S k) ps.
Proof.
  revert now k. induction ps as [|h ps IH]; intros now k Hk Hgood Hbefore.
  - destruct k; discriminate.
  - destruct k as [|k].
    + simpl in Hk. injection Hk as ->. rewrite Nat.add_0_r in *.
      destruct (resolveFrom_good p ps now Hgood) as [Hres [Hinv _]].
      rewrite Hres, Hinv. split; reflexivity.
    + assert (Hh : yieldsNothing
                     (provideOnTypeRenameRanges h model position (token now))
                   = true).
      { rewrite <- (Nat.add_0_r now).
        apply (Hbefore 0%nat); [lia|reflexivity]. }
      destruct (resolveFrom_nothing h ps now Hh) as [Hres [Hinv _]].
      rewrite Hres, Hinv. simpl in Hk.
      destruct (IH (S now) k Hk) as [Hres' Hinv'].
      * rewrite Nat.add_succ_comm. exact Hgood.
      * intros j q Hj Hq. rewrite Nat.add_succ_comm.
        apply Hbefore; [lia|exact Hq].
      * rewrite Hres', Hinv', Nat.add_succ_comm. split; reflexivity.
Qed.

(** With providers that all yield nothing, every one is asked and there is
    no result. *)
Lemma resolveFrom_exhausts ps now :
  (forall j q, nth_error ps j = Some q ->
     yieldsNothing
       (provideOnTypeRenameRanges q model position (token (now + j)%nat))
     = true) ->
  snd (resolveFrom model position token ps now) = Fulfilled Null /\
  invoked (fst (resolveFrom model position token ps now)) = ps.
Proof.
  revert now. induction ps as [|h ps IH]; intros now Hnone.
  - split; reflexivity.
  - assert (Hh : yieldsNothing
                   (provideOnTypeRenameRanges h model position (token now))
                 = true).
    { rewrite <- (Nat.add_0_r now). apply (Hnone 0%nat). reflexivity. }
    destruct (resolveFrom_nothing h ps now Hh) as [Hres [Hinv _]].
    rewrite Hres, Hinv.
    destruct (IH (S now)) as [Hres' Hinv'].
    { intros j q Hq. rewrite Nat.add_succ_comm. apply Hnone. exact Hq. }
    rewrite Hres', Hinv'. split; reflexivity.
Qed.

(** A provider that throws, reached because those before it yielded
    nothing, ends the chain: the chain fails with the error, no provider
    after it is asked, and the sink has the errors of the rejected promises
    before it and not the error thrown. *)
Lemma resolveFrom_throws ps now k p err :
  nth_error ps k = Some p ->
  provideOnTypeRenameRanges p model position (token (now + k)%nat)
  = Throws err ->
  (forall j q, (j < k)%nat -> nth_error ps j = Some q ->
     yieldsNothing
       (provideOnTypeRenameRanges q model position (token (now + j)%nat))
     = true) ->
  snd (resolveFrom model position token ps now) = Rejected err /\
  invoked (fst (resolveFrom model position token ps now)) = firstn (S k) ps /\
  reported (fst (resolveFrom model position token ps now))
  = failuresOf model position token now (firstn k ps).
Proof.
  revert now k. induction ps as [|h ps IH]; intros now k Hk Hthrows Hbefore.
  - destruct k; discriminate.
  - destruct k as [|k].
    + simpl in Hk. injection Hk as ->. rewrite Nat.add_0_r in *.
      rewrite (resolveFrom_throwing p ps now err Hthrows).
      repeat split.
    + assert (Hh : yieldsNothing
                     (provideOnTypeRenameRanges h model position (token now))
                   = true).
      { rewrite <- (Nat.add_0_r now).
        apply (Hbefore 0%nat); [lia|reflexivity]. }
      destruct (resolveFrom_nothing h ps now Hh) as [Hres [Hinv Hrep]].
      rewrite Hres, Hinv, Hrep. simpl in Hk.
      destruct (IH (S now) k Hk) as [Hres' [Hinv' Hrep']].
      * rewrite Nat.add_succ_comm. exact Hthrows.
      * intros j q Hj Hq. rewrite Nat.add_succ_comm.
        apply Hbefore; [lia|exact Hq].
      * rewrite Hres', Hinv', Hrep'. cbn [firstn].
        rewrite (failuresOf_cons now h (firstn k ps)).
        repeat split.
Qed.

End Chain.

Lemma isGood_answer model position tk p :
  isGood (provideOnTypeRenameRanges p model position tk) = true ->
  provideOnTypeRenameRanges p model position tk
  = Returns (Fulfilled (answer model position tk p)).
Proof.
  unfold answer, isGood.
  destruct (provideOnTypeRenameRanges p model position tk)
    as [[value|err]|err]; [reflexivity|discriminate|discriminate].
Qed.

(** Each provider asked is handed the token as it is at that moment. *)
Lemma resolveFrom_tokens model position token ps now :
  tokensPassed (fst (resolveFrom model position token ps now))
  = map token
      (seq now
         (List.length (invoked (fst (resolveFrom model position token ps now))))).
Proof.
  revert now. induction ps as [|p ps IH]; intros now.
  - reflexivity.
  - rewrite resolveFrom_cons.
    destruct (provideOnTypeRenameRanges p model position (token now))
      as [promise|err]; [|reflexivity].
    cbv zeta.
    destruct (isNonEmptyArray (answer model position (token now) p)); cbn [fst].
    + destruct promise; reflexivity.
    + rewrite tokensPassed_app, invoked_app, IH.
      destruct promise; reflexivity.
Qed.

(** Two timelines under which the providers answer alike lead to the same
    providers being asked and to the same result. *)
Lemma resolveFrom_token_irrelevant model position token token' ps now :
  (forall k p, nth_error ps k = Some p ->
     provideOnTypeRenameRanges p model position (token (now + k)%nat)
     = provideOnTypeRenameRanges p model position (token' (now + k)%nat)) ->
  snd (resolveFrom model position token ps now)
  = snd (resolveFrom model position token' ps now) /\
  invoked (fst (resolveFrom model position token ps now))
  = invoked (fst (resolveFrom model position token' ps now)).
Proof.
  revert now. induction ps as [|p ps IH]; intros now Hsame.
  - split; reflexivity.
  - rewrite !resolveFrom_cons.
    assert (Hp : provideOnTypeRenameRanges p model position (token now)
                 = provideOnTypeRenameRanges p model position (token' now)).
    { rewrite <- (Nat.add_0_r now). apply (Hsame 0%nat). reflexivity. }
    assert (Ha : answer model position (token now) p
                 = answer model position (token' now) p).
    { unfold answer. rewrite Hp. reflexivity. }
    rewrite Ha, Hp.
    destruct (provideOnTypeRenameRanges p model position (token' now))
      as [promise|err]; [|split; reflexivity].
    cbv zeta.
    destruct (isNonEmptyArray (answer model position (token' now) p));
      cbn [fst snd].
    + rewrite !invoked_call. split; reflexivity.
    + rewrite !invoked_app, !invoked_call.
      destruct (IH (S now)) as [Hres Hinv].
      { intros k q Hq. rewrite Nat.add_succ_comm. apply Hsame. exact Hq. }
      rewrite Hres, Hinv. split; reflexivity.
Qed.

(** A provider whose promise rejects after it was asked has its error sent
    to the sink, and the provider after it, if there is one, is asked as
    well. *)
Lemma resolveFrom_reports model position token ps now k p err :
  (k < List.length
         (invoked (fst (resolveFrom model position token ps now))))%nat ->
  nth_error ps k = Some p ->
  provideOnTypeRenameRanges p model position (token (now + k)%nat)
  = Returns (Rejected err) ->
  In err (reported (fst (resolveFrom model position token ps now))) /\
  ((S k < List.length ps)%nat ->
   (S k < List.length
            (invoked (fst (resolveFrom model position token ps now))))%nat).
Proof.
  revert now k. induction ps as [|h ps IH]; intros now k Hk Hp Herr.
  - destruct k; discriminate.
  - destruct k as [|k].
    + simpl in Hp. injection Hp as ->. rewrite Nat.add_0_r in Herr.
      assert (Hh : yieldsNothing
                     (provideOnTypeRenameRanges p model position (token now))
                   = true) by (rewrite Herr; reflexivity).
      destruct (resolveFrom_nothing model position token p ps now Hh)
        as [_ [Hinv Hrep]].
      rewrite Hinv, Hrep. unfold failuresOf. simpl. rewrite Herr. split.
      * left. reflexivity.
      * simpl. intros Hlen. destruct ps as [|q ps]; [simpl in Hlen; lia|].
        destruct (outcome_cases
                    (provideOnTypeRenameRanges q model position
                       (token (S now))))
          as [Hgood|[Hnothing|[err' Hthrows]]].
        -- destruct (resolveFrom_good model position token q ps (S now) Hgood)
             as [_ [Hinv' _]].
           rewrite Hinv'. simpl. lia.
        -- destruct (resolveFrom_nothing model position token q ps (S now)
                       Hnothing) as [_ [Hinv' _]].
           rewrite Hinv'. simpl. lia.
        -- rewrite (resolveFrom_throwing model position token q ps (S now)
                      err' Hthrows). simpl. lia.
    + simpl in Hp. revert Hk.
      destruct (outcome_cases
                  (provideOnTypeRenameRanges h model position (token now)))
        as [Hgood|[Hnothing|[err' Hthrows]]].
      * destruct (resolveFrom_good model position token h ps now Hgood)
          as [_ [Hinv _]].
        rewrite Hinv. simpl. lia.
      * destruct (resolveFrom_nothing model position token h ps now Hnothing)
          as [_ [Hinv Hrep]].
        rewrite Hinv, Hrep. simpl. intros Hk.
        destruct (IH (S now) k) as [Hin Hnext]; auto; try lia.
        { rewrite Nat.add_succ_comm. exact Herr. }
        split.
        -- apply in_or_app. right. exact Hin.
        -- intros Hlen. apply -> Nat.succ_lt_mono. apply Hnext. lia.
      * rewrite (resolveFrom_throwing model position token h ps now err'
                   Hthrows). simpl. lia.
Qed.

(** Replacing every provider by one that gives no result where its promise
    rejects changes neither the result nor the providers asked. *)
Lemma resolveFrom_quiet model position token ps now :
  snd (resolveFrom model position token (map quiet ps) now)
  = snd (resolveFrom model position token ps now) /\
  invoked (fst (resolveFrom model position token (map quiet ps) now))
  = map quiet (invoked (fst (resolveFrom model position token ps now))).
Proof.
  revert now. induction ps as [|p ps IH]; intros now.
  - split; reflexivity.
  - cbn [map]. rewrite !resolveFrom_cons.
    assert (Ha : answer model position (token now) (quiet p)
                 = answer model position (token now) p).
    { unfold answer, quiet. simpl.
      destruct (provideOnTypeRenameRanges p model position (token now))
        as [[value|err]|err]; reflexivity. }
    rewrite Ha. unfold quiet at 1. simpl.
    destruct (provideOnTypeRenameRanges p model position (token now))
      as [[value|err]|err]; cbv zeta.
    + destruct (isNonEmptyArray (answer model position (token now) p));
        cbn [fst snd].
      * split; reflexivity.
      * cbn [invoked app]. destruct (IH (S now)) as [Hres Hinv].
        rewrite Hres, Hinv. split; reflexivity.
    + destruct (isNonEmptyArray (answer model position (token now) p));
        cbn [fst snd].
      * split; reflexivity.
      * cbn [invoked app]. destruct (IH (S now)) as [Hres Hinv].
        rewrite Hres, Hinv. split; reflexivity.
    + split; reflexivity.
Qed.

(** ** The resolver *)

(** C4.  The first non-empty result is not returned when a provider of
    higher priority throws as it is called: with a throwing provider ranked
    before one that answers two ranges, the second is the first, and only,
    provider with a non-empty array, yet it is never asked and the resolver
    fails with the error thrown.  Nor is there a no-result answer when every
    provider yields an empty array or fails: with the throwing provider
    ranked before one that answers an empty array, the resolver fails all
    the same. *)
Theorem throwing_provider_hides_later_results :
  let token := CancellationToken_None in
  let position := mkPosition 1 7 in
  let ranked := [Sample.entry 2 Sample.throwing; Sample.entry 1 Sample.good] in
  let barren := [Sample.entry 2 Sample.throwing; Sample.entry 1 Sample.empty] in
  ordered ranked Sample.model = [Sample.throwing; Sample.good] /\
  provideOnTypeRenameRanges Sample.good Sample.model position (token 1%nat)
  = Returns (Fulfilled (Ranges [Sample.primary; Sample.mirror])) /\
  snd (getOnTypeRenameRanges ranked Sample.model position token)
  = Rejected (ExternalError "provider threw") /\
  invoked (fst (getOnTypeRenameRanges ranked Sample.model position token))
  = [Sample.throwing] /\
  snd (getOnTypeRenameRanges barren Sample.model position token)
  = Rejected (ExternalError "provider threw").
Proof.
  repeat split.
Qed.

(** C6, as the code has it.  The resolver never reads the token.  It hands
    the token, as it is at that moment, to each provider it asks; which
    providers are asked and what is returned depend on the token only
    through what the providers answer.  With providers that answer alike
    under two timelines, cancelled or not, the same providers are asked and
    the same result comes back. *)
Theorem resolver_leaves_cancellation_to_providers
    registry model position token token' :
  (forall k p, nth_error (ordered registry model) k = Some p ->
     provideOnTypeRenameRanges p model position (token k)
     = provideOnTypeRenameRanges p model position (token' k)) ->
  let outcome := getOnTypeRenameRanges registry model position token in
  let outcome' := getOnTypeRenameRanges registry model position token' in
  snd outcome = snd outcome' /\
  invoked (fst outcome) = invoked (fst outcome') /\
  tokensPassed (fst outcome)
  = map token (seq 0 (List.length (invoked (fst outcome)))).
Proof.
  intros Hsame outcome outcome'.
  destruct (resolveFrom_token_irrelevant model position token token'
              (ordered registry model) 0 Hsame) as [Hres Hinv].
  repeat split; auto. apply resolveFrom_tokens.
Qed.

(** Two providers that ignore the token, the first giving nothing: with
    the token cancelled after the first was asked, the second is asked all
    the same and its ranges are returned. *)
Lemma resolver_leaves_cancellation_to_providers_witness :
  let registry := [Sample.entry 2 Sample.empty; Sample.entry 1 Sample.good] in
  snd (getOnTypeRenameRanges registry Sample.model (mkPosition 1 7)
         Sample.cancelledAfterFirst)
  = snd (getOnTypeRenameRanges registry Sample.model (mkPosition 1 7)
           CancellationToken_None).
Proof.
  refine (proj1
    (resolver_leaves_cancellation_to_providers
       [Sample.entry 2 Sample.empty; Sample.entry 1 Sample.good]
       Sample.model (mkPosition 1 7) Sample.cancelledAfterFirst
       CancellationToken_None _)).
  intros [|[|k]] p Hp; try (injection Hp as <-; reflexivity).
  destruct k; discriminate Hp.
Defined.

Lemma stops_when_cancelled_counterexample :
  ~ stops_when_cancelled
      [Sample.entry 2 Sample.empty; Sample.entry 1 Sample.good]
      Sample.model (mkPosition 1 7) Sample.cancelledAfterFirst 1.
Proof.
  intros H. destruct H as [Hres _].
  - intros n. reflexivity.
  - vm_compute in Hres. discriminate Hres.
Qed.

(** C7.  A provider that throws as it is called is not treated as one that
    returned no result.  Reached because the providers before it yielded
    nothing, it makes the resolver fail with the error thrown; no provider
    after it is asked; and the sink holds the errors of the rejected
    promises before it, not the error thrown. *)
Theorem throwing_provider_aborts_resolution
    registry model position token k p err :
  let providers := ordered registry model in
  let outcome := getOnTypeRenameRanges registry model position token in
  nth_error providers k = Some p ->
  provideOnTypeRenameRanges p model position (token k) = Throws err ->
  (forall j q, (j < k)%nat -> nth_error providers j = Some q ->
     yieldsNothing (provideOnTypeRenameRanges q model position (token j))
     = true) ->
  snd outcome = Rejected err /\
  invoked (fst outcome) = firstn (S k) providers /\
  reported (fst outcome)
  = failuresOf model position token 0 (firstn k providers).
Proof.
  intros providers outcome Hp Hthrows Hbefore.
  apply (resolveFrom_throws model position token providers 0 k p err);
    assumption.
Qed.

(** A throwing provider of the highest priority, before one that answers
    two ranges: the resolver fails, the sink is empty and the second
    provider is not asked. *)
Lemma throwing_provider_aborts_resolution_witness :
  let registry := [Sample.entry 2 Sample.throwing; Sample.entry 1 Sample.good] in
  let outcome :=
    getOnTypeRenameRanges registry Sample.model (mkPosition 1 7)
      CancellationToken_None in
  snd outcome = Rejected (ExternalError "provider threw") /\
  invoked (fst outcome) = [Sample.throwing] /\
  reported (fst outcome) = [].
Proof.
  refine
    (throwing_provider_aborts_resolution
       [Sample.entry 2 Sample.throwing; Sample.entry 1 Sample.good]
       Sample.model (mkPosition 1 7) CancellationToken_None
       0%nat Sample.throwing (ExternalError "provider threw") _ _ _).
  - reflexivity.
  - reflexivity.
  - intros j q Hj. lia.
Defined.

(** ** Resolutions and the single slot *)

(** What [_run] does: nothing unless the feature is enabled, a position is
    given and the editor has a model; otherwise it cancels the request in
    the slot and puts a new pending one there. *)
Lemma _run_result editor position m :
  _run editor position m =
  match _enabled (self m), position, getModel editor with
  | true, Some position, Some _ => (Normal tt, resolving position m)
  | _, _, _ => (Normal tt, m)
  end.
Proof.
  destruct m as [[enabled current decorations ranges] table log].
  unfold _run, resolving, afterCancel, isPending, bind, this, ret; simpl.
  destruct enabled; [|reflexivity].
  destruct position as [position|]; [|reflexivity].
  destruct (getModel editor) as [model|]; [|reflexivity].
  destruct current as [r|]; simpl.
  - unfold cancel, bind, emit, promiseState, setPromise, update, ret,
      createCancelablePromise; simpl.
    destruct (nth_error table r) as [[| |]|]; simpl;
      rewrite <- ?app_assoc; reflexivity.
  - unfold createCancelablePromise, update; simpl. reflexivity.
Qed.





(** What the fulfilment callback does: it records the array and replaces
    the decorations in one call. *)
Lemma _run_onFulfilled_result editor value m :
  _run_onFulfilled editor value m =
  let decorations :=
    map (fun range => mkDecoration range DECORATION) (recordedFor value) in
  (Normal tt,
   mkMachine
     (mkContribution (_enabled (self m)) (_currentRequest (self m))
        (deltaDecorations editor (_currentDecorations (self m)) decorations)
        (Some (recordedFor value)))
     (promises m)
     (trace m ++ [DeltaDecorations (_currentDecorations (self m)) decorations])).
Proof.
  destruct value; reflexivity.
Qed.


(** The settlement of a pending request with a value. *)
Lemma settle_pending_fulfilled editor r value m :
  isPending m r = true ->
  settle editor r (Fulfilled value) m =
  let decorations :=
    map (fun range => mkDecoration range DECORATION) (recordedFor value) in
  (Normal tt,
   mkMachine
     (mkContribution (_enabled (self m)) (_currentRequest (self m))
        (deltaDecorations editor (_currentDecorations (self m)) decorations)
        (Some (recordedFor value)))
     (setNth r Done (promises m))
     (trace m ++ [DeltaDecorations (_currentDecorations (self m)) decorations])).
Proof.
  unfold isPending, settle, bind, promiseState. simpl.
  destruct (nth_error (promises m) r) as [[| |]|]; try discriminate.
  intros _. unfold setPromise. rewrite _run_onFulfilled_result. reflexivity.
Qed.


Lemma singleSlot_frame m m' :
  _currentRequest (self m') = _currentRequest (self m) ->
  (forall r, isPending m' r = true -> isPending m r = true) ->
  singleSlot m -> singleSlot m'.
Proof.
  intros Hcur Hpend Hslot r Hr. rewrite Hcur. apply Hslot, Hpend, Hr.
Qed.


Lemma _stopAll_singleSlot editor m :
  singleSlot m -> singleSlot (snd (_stopAll editor m)).
Proof.
  rewrite _stopAll_result. apply singleSlot_frame; auto.
Qed.

Lemma onDidChangeModelContent_frame editor e m :
  self (snd (onDidChangeModelContent editor e m)) = self m /\
  promises (snd (onDidChangeModelContent editor e m)) = promises m.
Proof.
  rewrite onDidChangeModelContent_cases.
  destruct (getModel editor); auto.
  destruct (mirrorable e (self m)); auto.
  destruct (changes e) as [|change [|? ?]]; auto.
  destruct (_syncedRanges (self m)) as [[|primary [|second rest]]|]; auto.
Qed.








(** * Further properties of the code *)

(** ** [isWithin] *)

Lemma isWithin_spec inner outer :
  isWithin inner outer = true <->
  startLineNumber outer <= startLineNumber inner /\
  endLineNumber inner <= endLineNumber outer /\
  startColumn outer <= startColumn inner /\
  endColumn inner <= endColumn outer.
Proof.
  unfold isWithin.
  rewrite !andb_true_iff, !Z.geb_leb, !Z.leb_le. tauto.
Qed.

Lemma isBeforeOrEqual_spec p q :
  isBeforeOrEqual p q = true <->
  lineNumber p < lineNumber q \/
  (lineNumber p = lineNumber q /\ column p <= column q).
Proof.
  unfold isBeforeOrEqual.
  rewrite orb_true_iff, andb_true_iff, Z.ltb_lt, Z.eqb_eq, Z.leb_le. tauto.
Qed.

Lemma not_mirrorable_no_edits editor e m :
  mirrorable e (self m) = false ->
  executedEdits (effectsOf (onDidChangeModelContent editor e) m) = [].
Proof.
  intros Hm.
  destruct (not_mirrorable_effects editor e m Hm) as [H|[model [_ H]]].
  - rewrite (effectsOf_unchanged _ _ _ H). reflexivity.
  - rewrite (effectsOf_logged _ _ _ _ H). reflexivity.
Qed.

(** X1.  [isWithin] orders ranges: every range is within itself, being
    within carries over a range in between, and two ranges within each
    other are the same range. *)
Theorem isWithin_partial_order a b c :
  isWithin a a = true /\
  (isWithin a b = true -> isWithin b c = true -> isWithin a c = true) /\
  (isWithin a b = true -> isWithin b a = true -> a = b).
Proof.
  split; [|split].
  - apply isWithin_spec. lia.
  - rewrite !isWithin_spec. lia.
  - rewrite !isWithin_spec. intros Hab Hba.
    destruct a, b; simpl in *. f_equal; lia.
Qed.

Lemma isWithin_partial_order_witness :
  isWithin (mkRange 1 7 1 7) (mkRange 1 5 1 12) = true.
Proof.
  refine (proj1 (proj2
    (isWithin_partial_order (mkRange 1 7 1 7) Sample.primary
       (mkRange 1 5 1 12))) _ _).
  - reflexivity.
  - reflexivity.
Defined.

(** X2.  For a range that lies on one line, [isWithin] of the empty range at
    a position says exactly whether the position is in the span of the
    range, both ends included. *)
Theorem isWithin_on_one_line outer p :
  startLineNumber outer = endLineNumber outer ->
  isWithin (collapsedAt p) outer = containsPosition outer p.
Proof.
  intros Hline. apply eq_true_iff_eq.
  rewrite isWithin_spec. unfold containsPosition.
  rewrite andb_true_iff, !isBeforeOrEqual_spec.
  unfold collapsedAt, getStartPosition, getEndPosition. simpl. lia.
Qed.

Lemma isWithin_on_one_line_witness :
  isWithin (collapsedAt (mkPosition 1 10)) Sample.primary = true /\
  isWithin (collapsedAt (mkPosition 1 11)) Sample.primary = false.
Proof.
  split.
  - rewrite (isWithin_on_one_line Sample.primary (mkPosition 1 10)).
    + reflexivity.
    + reflexivity.
  - rewrite (isWithin_on_one_line Sample.primary (mkPosition 1 11)).
    + reflexivity.
    + reflexivity.
Defined.

(** X3.  For a range over several lines the test is by columns all the
    same: a position on a line strictly inside the range, whose column is
    left of the range's start column or right of its end column, is in the
    span of the range and yet not within it, and an insertion there is not
    mirrored. *)
Theorem isWithin_rejects_inner_lines editor m change primary rest p :
  startLineNumber primary < lineNumber p < endLineNumber primary ->
  column p < startColumn primary \/ endColumn primary < column p ->
  _syncedRanges (self m) = Some (primary :: rest) ->
  range change = collapsedAt p ->
  containsPosition primary p = true /\
  isWithin (collapsedAt p) primary = false /\
  executedEdits
    (effectsOf (onDidChangeModelContent editor (mkChangedEvent [change])) m)
  = [].
Proof.
  intros Hline Hcol Hranges Hrange.
  assert (Hout : isWithin (collapsedAt p) primary = false).
  { destruct (isWithin (collapsedAt p) primary) eqn:H; auto.
    apply isWithin_spec in H. unfold collapsedAt in H. simpl in H. lia. }
  split; [|split; [exact Hout|]].
  - unfold containsPosition. apply andb_true_iff.
    rewrite !isBeforeOrEqual_spec.
    unfold getStartPosition, getEndPosition. simpl. lia.
  - apply not_mirrorable_no_edits.
    unfold mirrorable. simpl. rewrite Hranges, Hrange, Hout.
    apply andb_false_r.
Qed.

Lemma isWithin_rejects_inner_lines_witness :
  containsPosition (mkRange 1 5 3 2) (mkPosition 2 1) = true /\
  isWithin (collapsedAt (mkPosition 2 1)) (mkRange 1 5 3 2) = false.
Proof.
  pose proof
    (isWithin_rejects_inner_lines Sample.editor
       (Sample.synced [mkRange 1 5 3 2; Sample.mirror])
       (mkChange (collapsedAt (mkPosition 2 1)) 80 0 "x")
       (mkRange 1 5 3 2) [Sample.mirror] (mkPosition 2 1)) as H.
  simpl in H.
  destruct H as [Hin [Hout _]]; try reflexivity.
  - lia.
  - left. lia.
  - split; assumption.
Defined.

(** ** The content listener, beyond mirroring *)

(** X4.  The listener throws exactly when the editor has a model, the event
    is one it classifies as mirrorable, and a single range is recorded.
    When it throws it has made no edit and changed no field, and its closing
    log line is not reached. *)
Theorem listener_throws_iff editor e m :
  ((exists err, fst (onDidChangeModelContent editor e m) = Throw err) <->
   hasModel editor = true /\
   mirrorable e (self m) = true /\
   exists primary, _syncedRanges (self m) = Some [primary]) /\
  (forall err,
     fst (onDidChangeModelContent editor e m) = Throw err ->
     effectsOf (onDidChangeModelContent editor e) m
     = [ConsoleLog "buffer changed!"] /\
     self (snd (onDidChangeModelContent editor e m)) = self m).
Proof.
  pose proof (onDidChangeModelContent_cases editor e m) as Hc.
  unfold hasModel. destruct (getModel editor) as [model|].
  - destruct (mirrorable e (self m)) eqn:Hm.
    + unfold mirrorable in Hm.
      destruct (changes e) as [|change [|? ?]]; try discriminate Hm.
      destruct (_syncedRanges (self m)) as [[|primary [|second rest]]|];
        try discriminate Hm.
      * split.
        -- split.
           ++ intros _. repeat split. exists primary. reflexivity.
           ++ intros _. rewrite Hc. eexists. reflexivity.
        -- intros err _. rewrite (effectsOf_logged _ _ _ _ Hc), Hc.
           split; reflexivity.
      * split.
        -- split.
           ++ intros [err Herr]. rewrite Hc in Herr. discriminate Herr.
           ++ intros [_ [_ [x Hx]]]. discriminate Hx.
        -- intros err Herr. rewrite Hc in Herr. discriminate Herr.
    + split.
      * split.
        -- intros [err Herr]. rewrite Hc in Herr. discriminate Herr.
        -- intros [_ [Hf _]]. discriminate Hf.
      * intros err Herr. rewrite Hc in Herr. discriminate Herr.
  - split.
    + split.
      * intros [err Herr]. rewrite Hc in Herr. discriminate Herr.
      * intros [Hf _]. discriminate Hf.
    + intros err Herr. rewrite Hc in Herr. discriminate Herr.
Qed.

Lemma listener_throws_iff_witness :
  exists err,
    fst (onDidChangeModelContent Sample.editor
           (mkChangedEvent [Sample.insertion])
           (Sample.synced [Sample.primary]))
    = Throw err.
Proof.
  refine (proj2 (proj1
    (listener_throws_iff Sample.editor (mkChangedEvent [Sample.insertion])
       (Sample.synced [Sample.primary]))) _).
  repeat split. exists Sample.primary. reflexivity.
Defined.

(** X5.  Whatever the event and the state, the listener makes at most one
    edit; the edit is an insertion at an empty range, of the text of the
    event's only change; it makes no decoration call, starts no resolution,
    reports no error, and changes neither the contribution's fields nor the
    state of any promise. *)
Theorem listener_footprint editor e m :
  let listener := onDidChangeModelContent editor e in
  (List.length (executedEdits (effectsOf listener m)) <= 1)%nat /\
  Forall
    (fun edit =>
       isCollapsed (edit_range edit) = true /\
       exists change, changes e = [change] /\ edit_text edit = text change)
    (executedEdits (effectsOf listener m)) /\
  decorationCalls (effectsOf listener m) = [] /\
  resolutionsStarted (effectsOf listener m) = [] /\
  errorsReported (effectsOf listener m) = [] /\
  self (snd (listener m)) = self m /\
  promises (snd (listener m)) = promises m.
Proof.
  intros listener.
  pose proof (onDidChangeModelContent_cases editor e m) as Hc.
  fold listener in Hc.
  destruct (getModel editor) as [model|].
  - destruct (mirrorable e (self m)) eqn:Hm.
    + unfold mirrorable in Hm.
      destruct (changes e) as [|change [|? ?]] eqn:Hchanges;
        try discriminate Hm.
      destruct (_syncedRanges (self m)) as [[|primary [|second rest]]|];
        try discriminate Hm;
        rewrite (effectsOf_logged _ _ _ _ Hc), Hc; simpl;
        repeat split; auto.
      constructor; [|constructor]. split.
      * unfold isCollapsed. simpl. rewrite !Z.eqb_refl. reflexivity.
      * exists change. split; reflexivity.
    + rewrite (effectsOf_logged _ _ _ _ Hc), Hc. simpl. repeat split; auto.
  - rewrite (effectsOf_unchanged _ _ _ Hc), Hc. simpl. repeat split; auto.
Qed.

(** X6.  The edit mirrored into the second range is not mirrored again when
    it comes back as a content change, provided the second range starts on a
    line outside the lines of the first: whatever its offset, length and
    text, a change at the range of the mirrored edit leads to no edit. *)
Theorem mirrored_edit_is_not_mirrored_again
    editor model m change primary second rest again :
  _syncedRanges (self m) = Some (primary :: second :: rest) ->
  startLineNumber second < startLineNumber primary \/
  endLineNumber primary < startLineNumber second ->
  range again = edit_range (mirroredEdit model change primary second) ->
  executedEdits
    (effectsOf (onDidChangeModelContent editor (mkChangedEvent [again])) m)
  = [].
Proof.
  intros Hranges Hlines Hagain.
  apply not_mirrorable_no_edits.
  unfold mirrorable. simpl. rewrite Hranges.
  destruct (isWithin (range again) primary) eqn:Hin;
    [|apply andb_false_r].
  apply isWithin_spec in Hin. rewrite Hagain in Hin.
  unfold mirroredEdit, collapsedAt in Hin. simpl in Hin. lia.
Qed.

Lemma mirrored_edit_is_not_mirrored_again_witness :
  executedEdits
    (effectsOf
       (onDidChangeModelContent Sample.editor
          (mkChangedEvent [mkChange (mkRange 5 4 5 4) 323 0 "x"]))
       (Sample.synced [Sample.primary; Sample.mirror]))
  = [].
Proof.
  refine
    (mirrored_edit_is_not_mirrored_again Sample.editor Sample.model
       (Sample.synced [Sample.primary; Sample.mirror]) Sample.insertion
       Sample.primary Sample.mirror [] (mkChange (mkRange 5 4 5 4) 323 0 "x")
       _ _ _).
  - reflexivity.
  - right. unfold Sample.primary, Sample.mirror. simpl. lia.
  - reflexivity.
Defined.

(** X7.  For a first range on one line, a change whose offset is that of
    its start, and a document in which the columns from the start of the
    first range up to the change are columns of that line, offsets
    advancing by one per column: the mirrored insertion is as many columns
    after the start of the second range as the user's insertion is after
    the start of the first, a distance between zero and the width of the
    first range. *)
Theorem mirrored_edit_keeps_column_distance
    editor model m change primary second rest :
  getModel editor = Some model ->
  _syncedRanges (self m) = Some (primary :: second :: rest) ->
  rangeLength change = 0 ->
  isWithin (range change) primary = true ->
  isWellFormed (range change) = true ->
  startLineNumber primary = endLineNumber primary ->
  columnsAdvanceBetween model (startLineNumber primary)
    (startColumn primary) (startColumn (range change)) ->
  rangeOffset change = getOffsetAt model (getStartPosition (range change)) ->
  let distance := startColumn (range change) - startColumn primary in
  executedEdits
    (effectsOf (onDidChangeModelContent editor (mkChangedEvent [change])) m)
  = [mkEdit
       (collapsedAt
          (mkPosition (startLineNumber second) (startColumn second + distance)))
       (text change)] /\
  0 <= distance <= endColumn primary - startColumn primary.
Proof.
  intros Hmodel Hranges Hlen Hin Hwf Hline Hcols Hoffset distance.
  pose proof Hin as Hspec. apply isWithin_spec in Hspec.
  unfold isWellFormed in Hwf. apply isBeforeOrEqual_spec in Hwf.
  unfold getStartPosition, getEndPosition in Hwf. simpl in Hwf.
  assert (Hsame : startLineNumber (range change) = startLineNumber primary)
    by lia.
  assert (Hdist : 0 <= distance) by (unfold distance; lia).
  assert (Hrel : rangeOffset change
                 - getOffsetAt model (getStartPosition primary) = distance).
  { rewrite Hoffset. unfold getStartPosition. rewrite Hsame.
    replace (startColumn (range change))
      with (startColumn primary + distance) at 1 by (unfold distance; lia).
    rewrite columnsAdvanceBetween_offset; [lia|exact Hdist|].
    replace (startColumn primary + distance)
      with (startColumn (range change)) by (unfold distance; lia).
    exact Hcols. }
  split; [|unfold distance; lia].
  pose proof (onDidChangeModelContent_cases editor (mkChangedEvent [change]) m)
    as Hc.
  assert (Hm : mirrorable (mkChangedEvent [change]) (self m) = true).
  { unfold mirrorable; simpl. rewrite Hranges, Hlen, Hin. reflexivity. }
  rewrite Hmodel, Hm, Hranges in Hc. simpl in Hc.
  rewrite (effectsOf_logged _ _ _ _ Hc). simpl.
  unfold mirroredEdit. rewrite Hrel. reflexivity.
Qed.

(** In a document of nine lines of twenty characters, ["x"] typed at line
    1, column 7, two columns into the first range, is mirrored two columns
    into the second. *)
Lemma mirrored_edit_keeps_column_distance_witness :
  executedEdits
    (effectsOf
       (onDidChangeModelContent Sample.clampedEditor
          (mkChangedEvent [Sample.insertion]))
       (Sample.synced [Sample.primary; Sample.mirror]))
  = [mkEdit (mkRange 5 4 5 4) "x"].
Proof.
  refine (proj1
    (mirrored_edit_keeps_column_distance Sample.clampedEditor Sample.clamped
       (Sample.synced [Sample.primary; Sample.mirror]) Sample.insertion
       Sample.primary Sample.mirror [] _ _ _ _ _ _ _ _)).
  - reflexivity.
  - reflexivity.
  - reflexivity.
  - reflexivity.
  - reflexivity.
  - reflexivity.
  - intros col Hcol.
    cbv [Sample.clamped Sample.primary Sample.insertion getOffsetAt
         startLineNumber startColumn range lineNumber column] in Hcol |- *.
    lia.
  - reflexivity.
Defined.

(** ** Starting resolutions *)

Lemma length_afterCancel m :
  List.length (afterCancel m) = List.length (promises m).
Proof.
  unfold afterCancel. destruct (_currentRequest (self m)) as [r|]; auto.
  destruct (isPending m r); auto. apply length_setNth.
Qed.

Lemma _run_trace editor position m :
  trace (snd (_run editor position m))
  = trace m ++
    match position with
    | Some p =>
      if passesGuards editor position (self m) then startEffects p m else []
    | None => []
    end.
Proof.
  rewrite _run_result. unfold passesGuards, hasModel, startEffects.
  destruct (_enabled (self m)); simpl; [|destruct position; symmetry; apply app_nil_r].
  destruct position as [p|]; simpl; [|symmetry; apply app_nil_r].
  destruct (getModel editor); simpl; [|symmetry; apply app_nil_r].
  rewrite length_afterCancel. reflexivity.
Qed.

Lemma _run_self editor position m :
  self (snd (_run editor position m))
  = if passesGuards editor position (self m)
    then set_currentRequest (Some (List.length (promises m))) (self m)
    else self m.
Proof.
  rewrite _run_result. unfold passesGuards, hasModel.
  destruct (_enabled (self m)); simpl; auto.
  destruct position as [p|]; simpl; auto.
  destruct (getModel editor); simpl; auto.
  rewrite length_afterCancel. reflexivity.
Qed.

Lemma _run_unchanged editor position m :
  passesGuards editor position (self m) = false ->
  _run editor position m = (Normal tt, m).
Proof.
  rewrite _run_result. unfold passesGuards, hasModel.
  destruct (_enabled (self m)); simpl; auto.
  destruct position as [p|]; simpl; auto.
  destruct (getModel editor); simpl; auto. discriminate.
Qed.

Lemma _run_pending editor position m :
  passesGuards editor position (self m) = true ->
  isPending (snd (_run editor position m)) (List.length (promises m)) = true.
Proof.
  rewrite _run_result. unfold passesGuards, hasModel.
  destruct (_enabled (self m)); simpl; try discriminate.
  destruct position as [p|]; simpl; try discriminate.
  destruct (getModel editor); simpl; try discriminate.
  intros _. unfold isPending, resolving. simpl.
  rewrite nth_error_app2 by (rewrite length_afterCancel; lia).
  rewrite length_afterCancel, Nat.sub_diag. reflexivity.
Qed.

Lemma decorationCalls_startEffects p m :
  decorationCalls (startEffects p m) = [] /\
  executedEdits (startEffects p m) = [] /\
  resolutionsStarted (startEffects p m) = [List.length (promises m)].
Proof.
  unfold startEffects. destruct (_currentRequest (self m)); repeat split.
Qed.

(** X8.  When the cursor moves, [_run] either goes past its guards (the
    feature enabled, the editor with a model) or does nothing at all.  Past
    the guards it cancels the request in the slot, starts one resolution at
    the position of the event, and puts it in the slot as the pending one.
    Either way the recorded ranges and the decoration handles stay as they
    are until a resolution settles: no decoration call is made. *)
Theorem cursor_move_starts_one_resolution editor position m :
  let listener := onDidChangeCursorPosition editor position in
  (if _enabled (self m) && hasModel editor
   then effectsOf listener m = startEffects position m /\
        _currentRequest (self (snd (listener m)))
        = Some (List.length (promises m)) /\
        isPending (snd (listener m)) (List.length (promises m)) = true
   else listener m = (Normal tt, m)) /\
  _syncedRanges (self (snd (listener m))) = _syncedRanges (self m) /\
  _currentDecorations (self (snd (listener m))) = _currentDecorations (self m) /\
  decorationCalls (effectsOf listener m) = [].
Proof.
  intros listener. unfold listener, onDidChangeCursorPosition.
  pose proof (_run_trace editor (Some position) m) as Ht.
  pose proof (_run_self editor (Some position) m) as Hs.
  assert (Hg : passesGuards editor (Some position) (self m)
               = _enabled (self m) && hasModel editor).
  { unfold passesGuards. rewrite andb_true_r. reflexivity. }
  rewrite Hg in Ht, Hs.
  destruct (_enabled (self m) && hasModel editor) eqn:Hpass.
  - rewrite (effectsOf_trace _ _ _ Ht), Hs. simpl.
    repeat split.
    + apply _run_pending. exact Hg.
    + apply decorationCalls_startEffects.
  - rewrite (effectsOf_trace _ _ _ Ht), Hs.
    repeat split. apply _run_unchanged. exact Hg.
Qed.

(** ** Model and configuration changes *)

Lemma onDidChangeModel_unfold editor m :
  onDidChangeModel editor m
  = _run editor (getPosition editor) (snd (_stopAll editor m)).
Proof.
  unfold onDidChangeModel, bind. rewrite _stopAll_result. reflexivity.
Qed.

Lemma onDidChangeConfiguration_unfold editor m :
  onDidChangeConfiguration editor true m
  = _run editor (getPosition editor)
      (snd (_stopAll editor
              (mkMachine (set_enabled (getOption_autoRename editor) (self m))
                 (promises m) (trace m)))).
Proof.
  unfold onDidChangeConfiguration, bind, update. rewrite _stopAll_result.
  reflexivity.
Qed.

Lemma decorationCalls_app a b :
  decorationCalls (a ++ b) = decorationCalls a ++ decorationCalls b.
Proof.
  induction a as [|[] a IH]; simpl; auto. rewrite IH. reflexivity.
Qed.

Lemma resolutionsStarted_app a b :
  resolutionsStarted (a ++ b) = resolutionsStarted a ++ resolutionsStarted b.
Proof.
  induction a as [|[] a IH]; simpl; auto. rewrite IH. reflexivity.
Qed.

(** The calls of [_stopAll] followed by [_run]. *)
Lemma stop_then_run_effects editor position m0 m :
  trace m0 = trace m ->
  trace (snd (_run editor position (snd (_stopAll editor m0))))
  = trace m ++
    DeltaDecorations (_currentDecorations (self m0)) [] ::
    match position with
    | Some p =>
      if passesGuards editor position (self m0)
      then startEffects p m0 else []
    | None => []
    end.
Proof.
  intros Htrace. rewrite _run_trace, _stopAll_result. simpl.
  rewrite Htrace, <- app_assoc. simpl.
  unfold passesGuards, startEffects. simpl. reflexivity.
Qed.



(** X10.  A configuration change that does not concern the option is
    ignored altogether.  One that does makes the flag follow the option and
    makes one decoration call with an empty target set, whether the option
    went on or off; it starts one resolution exactly when the option is on
    and the editor has a position and a model.  The recorded ranges are not
    touched. *)
Theorem configuration_change_follows_option editor changed m :
  let listener := onDidChangeConfiguration editor changed in
  if changed then
    _enabled (self (snd (listener m))) = getOption_autoRename editor /\
    decorationCalls (effectsOf listener m)
    = [(_currentDecorations (self m), [])] /\
    resolutionsStarted (effectsOf listener m)
    = (if getOption_autoRename editor &&
          match getPosition editor with Some _ => true | None => false end &&
          hasModel editor
       then [List.length (promises m)] else []) /\
    _syncedRanges (self (snd (listener m))) = _syncedRanges (self m)
  else listener m = (Normal tt, m).
Proof.
  intros listener. destruct changed; [|reflexivity].
  set (m0 := mkMachine (set_enabled (getOption_autoRename editor) (self m))
               (promises m) (trace m)).
  pose proof (stop_then_run_effects editor (getPosition editor) m0 m eq_refl)
    as Ht.
  assert (Hu : listener m
               = _run editor (getPosition editor) (snd (_stopAll editor m0))).
  { apply onDidChangeConfiguration_unfold. }
  rewrite <- Hu in Ht.
  rewrite (effectsOf_trace _ _ _ Ht), Hu, _run_self, _stopAll_result.
  cbn [snd self promises].
  assert (Hg : passesGuards editor (getPosition editor)
                 (set_currentDecorations
                    (deltaDecorations editor (_currentDecorations (self m0)) [])
                    (self m0))
               = getOption_autoRename editor &&
                 match getPosition editor with
                 | Some _ => true
                 | None => false
                 end && hasModel editor)
    by reflexivity.
  assert (Hg0 : passesGuards editor (getPosition editor) (self m0)
                = getOption_autoRename editor &&
                  match getPosition editor with
                  | Some _ => true
                  | None => false
                  end && hasModel editor)
    by reflexivity.
  rewrite Hg, Hg0.
  split; [|split; [|split]].
  - destruct (_ && _ && hasModel editor); reflexivity.
  - cbn [decorationCalls]. f_equal.
    destruct (getPosition editor) as [p|]; auto.
    destruct (_ && _ && hasModel editor); auto.
    apply decorationCalls_startEffects.
  - cbn [resolutionsStarted].
    destruct (getPosition editor) as [p|].
    + destruct (_ && _ && hasModel editor); auto.
      apply (decorationCalls_startEffects p m0).
    + rewrite andb_false_r. reflexivity.
  - destruct (_ && _ && hasModel editor); reflexivity.
Qed.

(** ** Settlements *)

(** A settlement changes the contribution only when the request is still
    pending and fulfils: then the array is recorded and the decorations are
    replaced. *)
Lemma settle_self editor r outcome m :
  self (snd (settle editor r outcome m))
  = match outcome with
    | Fulfilled value =>
      if isPending m r then
        mkContribution (_enabled (self m)) (_currentRequest (self m))
          (deltaDecorations editor (_currentDecorations (self m))
             (map (fun range => mkDecoration range DECORATION)
                (recordedFor value)))
          (Some (recordedFor value))
      else self m
    | Rejected _ => self m
    end.
Proof.
  destruct outcome as [value|err].
  - destruct (isPending m r) eqn:Hp.
    + rewrite (settle_pending_fulfilled editor r value m Hp). reflexivity.
    + unfold isPending in Hp. unfold settle, bind, promiseState. simpl.
      destruct (nth_error (promises m) r) as [[| |]|]; try discriminate Hp;
        reflexivity.
  - unfold settle, bind, promiseState. simpl.
    destruct (nth_error (promises m) r) as [[| |]|]; try reflexivity.
    destruct err; reflexivity.
Qed.

Lemma settle_trace editor r outcome m :
  trace (snd (settle editor r outcome m))
  = trace m ++
    if isPending m r then
      match outcome with
      | Fulfilled value =>
        [DeltaDecorations (_currentDecorations (self m))
           (map (fun range => mkDecoration range DECORATION)
              (recordedFor value))]
      | Rejected Canceled => []
      | Rejected err => [ReportUnexpectedError err]
      end
    else [].
Proof.
  destruct (isPending m r) eqn:Hp.
  - destruct outcome as [value|err].
    + rewrite (settle_pending_fulfilled editor r value m Hp). reflexivity.
    + unfold isPending in Hp. unfold settle, bind, promiseState. simpl.
      destruct (nth_error (promises m) r) as [[| |]|]; try discriminate Hp.
      destruct err; simpl; rewrite ?app_nil_r; reflexivity.
  - unfold isPending in Hp. unfold settle, bind, promiseState. simpl.
    destruct (nth_error (promises m) r) as [[| |]|]; try discriminate Hp;
      simpl; rewrite app_nil_r; reflexivity.
Qed.

Lemma _run_syncedRanges editor position m :
  _syncedRanges (self (snd (_run editor position m))) = _syncedRanges (self m) /\
  _currentDecorations (self (snd (_run editor position m)))
  = _currentDecorations (self m).
Proof.
  rewrite _run_self.
  destruct (passesGuards editor position (self m)); split; reflexivity.
Qed.

Lemma handle_syncedRanges editor ev m :
  _syncedRanges (self (snd (handle editor ev m))) = _syncedRanges (self m) \/
  exists r value,
    ev = RequestSettled r (Fulfilled value) /\
    isPending m r = true /\
    _syncedRanges (self (snd (handle editor ev m))) = Some (recordedFor value).
Proof.
  destruct ev as [|changed|position| |e|r outcome]; simpl.
  - left. rewrite onDidChangeModel_unfold.
    rewrite (proj1 (_run_syncedRanges _ _ _)). reflexivity.
  - left. destruct changed; [|reflexivity].
    rewrite onDidChangeConfiguration_unfold.
    rewrite (proj1 (_run_syncedRanges _ _ _)). reflexivity.
  - left. apply _run_syncedRanges.
  - left. apply _run_syncedRanges.
  - left. rewrite (proj1 (onDidChangeModelContent_frame editor e m)).
    reflexivity.
  - rewrite settle_self. destruct outcome as [value|err]; [|left; reflexivity].
    destruct (isPending m r) eqn:Hp; [|left; reflexivity].
    right. exists r, value. repeat split; auto.
Qed.

(** X11.  The recorded ranges change in one place only, the fulfilment of
    a pending resolution: every other event leaves them as they are.  So a
    range set, once recorded, is never taken back: however the events run
    on, some array stays recorded. *)
Theorem recorded_ranges_change_only_on_fulfilment events editor ev m :
  (_syncedRanges (self (snd (handle editor ev m))) <> _syncedRanges (self m) ->
   exists r value,
     ev = RequestSettled r (Fulfilled value) /\
     isPending m r = true /\
     _syncedRanges (self (snd (handle editor ev m)))
     = Some (recordedFor value)) /\
  (forall ranges,
     _syncedRanges (self m) = Some ranges ->
     exists ranges', _syncedRanges (self (run events m)) = Some ranges').
Proof.
  split.
  - intros Hne.
    destruct (handle_syncedRanges editor ev m) as [Hsame|Hset]; auto.
    contradiction.
  - revert m. induction events as [|[editor' ev'] events IH];
      intros m ranges Hranges; simpl.
    + exists ranges. exact Hranges.
    + destruct (handle_syncedRanges editor' ev' m)
        as [Hsame|[r [value [_ [_ Hset]]]]].
      * apply (IH _ ranges). rewrite Hsame. exact Hranges.
      * apply (IH _ (recordedFor value)). exact Hset.
Qed.

Lemma recorded_ranges_change_only_on_fulfilment_witness :
  exists ranges',
    _syncedRanges
      (self (run [(Sample.editorDisabled, DidChangeConfiguration true);
                  (Sample.editor, DidChangeModel);
                  (Sample.editor,
                   DidChangeModelContent (mkChangedEvent [Sample.deletion]))]
                 (Sample.synced [Sample.primary; Sample.mirror])))
    = Some ranges'.
Proof.
  refine (proj2
    (recorded_ranges_change_only_on_fulfilment
       [(Sample.editorDisabled, DidChangeConfiguration true);
        (Sample.editor, DidChangeModel);
        (Sample.editor,
         DidChangeModelContent (mkChangedEvent [Sample.deletion]))]
       Sample.editor DidChangeModel
       (Sample.synced [Sample.primary; Sample.mirror]))
    [Sample.primary; Sample.mirror] _).
  reflexivity.
Defined.

(** ** Decoration handles *)

Lemma decorationCalls_guarded editor position m :
  decorationCalls
    match position with
    | Some p =>
      if passesGuards editor position (self m) then startEffects p m else []
    | None => []
    end
  = [].
Proof.
  destruct position as [p|]; auto.
  destruct (passesGuards editor (Some p) (self m)); auto.
  apply decorationCalls_startEffects.
Qed.

Lemma stop_then_run_decorations editor position m0 m :
  trace m0 = trace m ->
  let after := snd (_run editor position (snd (_stopAll editor m0))) in
  trace after
  = trace m ++
    DeltaDecorations (_currentDecorations (self m0)) [] ::
    match position with
    | Some p =>
      if passesGuards editor position (self m0)
      then startEffects p m0 else []
    | None => []
    end /\
  _currentDecorations (self after)
  = deltaDecorations editor (_currentDecorations (self m0)) [] /\
  _syncedRanges (self after) = _syncedRanges (self m0).
Proof.
  intros Htrace after. split; [|split].
  - apply stop_then_run_effects. exact Htrace.
  - unfold after. rewrite (proj2 (_run_syncedRanges _ _ _)), _stopAll_result.
    reflexivity.
  - unfold after. rewrite (proj1 (_run_syncedRanges _ _ _)), _stopAll_result.
    reflexivity.
Qed.

(** What one event does to the decorations: no call, with handles and ranges
    as before; or one call that hands back the handles held, for an empty
    target set or for one decoration per range just recorded. *)
Lemma handle_decorations editor ev m :
  let after := snd (handle editor ev m) in
  let calls := decorationCalls (effectsOf (handle editor ev) m) in
  (calls = [] /\
   _currentDecorations (self after) = _currentDecorations (self m) /\
   _syncedRanges (self after) = _syncedRanges (self m)) \/
  exists new,
    calls = [(_currentDecorations (self m), new)] /\
    _currentDecorations (self after)
    = deltaDecorations editor (_currentDecorations (self m)) new /\
    (new = [] \/
     exists ranges,
       _syncedRanges (self after) = Some ranges /\
       new = map (fun range => mkDecoration range DECORATION) ranges).
Proof.
  destruct ev as [|changed|position| |e|r outcome]; cbn [handle]; cbv zeta.
  - right. exists [].
    destruct (stop_then_run_decorations editor (getPosition editor) m m eq_refl)
      as [Ht [Hd _]].
    rewrite <- onDidChangeModel_unfold in Ht, Hd.
    rewrite (effectsOf_trace _ _ _ Ht). cbn [decorationCalls].
    rewrite decorationCalls_guarded. auto.
  - destruct changed.
    + right. exists [].
      destruct (stop_then_run_decorations editor (getPosition editor)
                  (mkMachine
                     (set_enabled (getOption_autoRename editor) (self m))
                     (promises m) (trace m)) m eq_refl)
        as [Ht [Hd _]].
      rewrite <- onDidChangeConfiguration_unfold in Ht, Hd.
      rewrite (effectsOf_trace _ _ _ Ht). cbn [decorationCalls].
      rewrite decorationCalls_guarded. auto.
    + left.
      assert (H : onDidChangeConfiguration editor false m = (Normal tt, m))
        by reflexivity.
      rewrite (effectsOf_unchanged _ _ _ H), H. auto.
  - left. unfold onDidChangeCursorPosition.
    rewrite (effectsOf_trace _ _ _ (_run_trace editor (Some position) m)).
    pose proof (decorationCalls_guarded editor (Some position) m) as Hg.
    cbv beta iota in Hg. cbv beta iota. rewrite Hg.
    destruct (_run_syncedRanges editor (Some position) m). auto.
  - left. unfold onDidChange_registry.
    rewrite (effectsOf_trace _ _ _ (_run_trace editor (getPosition editor) m)).
    rewrite decorationCalls_guarded.
    destruct (_run_syncedRanges editor (getPosition editor) m). auto.
  - left.
    destruct (onDidChangeModelContent_frame editor e m) as [Hself _].
    rewrite Hself. repeat split.
    pose proof (onDidChangeModelContent_cases editor e m) as Hc.
    destruct (getModel editor) as [model|].
    + destruct (mirrorable e (self m)).
      * destruct (changes e) as [|change [|? ?]];
          try (rewrite (effectsOf_logged _ _ _ _ Hc); reflexivity).
        destruct (_syncedRanges (self m)) as [[|primary [|second rest]]|];
          rewrite (effectsOf_logged _ _ _ _ Hc); reflexivity.
      * rewrite (effectsOf_logged _ _ _ _ Hc). reflexivity.
    + rewrite (effectsOf_unchanged _ _ _ Hc). reflexivity.
  - rewrite (effectsOf_trace _ _ _ (settle_trace editor r outcome m)).
    rewrite settle_self.
    destruct (isPending m r).
    + destruct outcome as [value|err].
      * right. eexists. split; [reflexivity|]. split; [reflexivity|].
        right. eexists. split; reflexivity.
      * left. destruct err; auto.
    + left. destruct outcome; auto.
Qed.

(** X12.  No handle is lost or handed back twice: an event makes at most
    one decoration call, the call hands back exactly the handles the
    contribution held before the event, and the handles it holds afterwards
    are the ones the editor answered with. *)
Theorem decorations_replaced_wholesale editor ev m :
  let after := snd (handle editor ev m) in
  let calls := decorationCalls (effectsOf (handle editor ev) m) in
  (List.length calls <= 1)%nat /\
  Forall
    (fun call =>
       fst call = _currentDecorations (self m) /\
       _currentDecorations (self after)
       = deltaDecorations editor (fst call) (snd call))
    calls /\
  (calls = [] ->
   _currentDecorations (self after) = _currentDecorations (self m)).
Proof.
  cbv zeta.
  destruct (handle_decorations editor ev m)
    as [[Hcalls [Hd _]]|[new [Hcalls [Hd _]]]]; rewrite Hcalls.
  - repeat split; auto.
  - simpl. repeat split; auto. discriminate.
Qed.

Lemma decorations_replaced_wholesale_witness :
  _currentDecorations
    (self (snd (handle Sample.editor
                  (DidChangeModelContent (mkChangedEvent [Sample.insertion]))
                  (Sample.synced [Sample.primary; Sample.mirror]))))
  = ["decoration"; "decoration"].
Proof.
  refine (proj2 (proj2
    (decorations_replaced_wholesale Sample.editor
       (DidChangeModelContent (mkChangedEvent [Sample.insertion]))
       (Sample.synced [Sample.primary; Sample.mirror]))) _).
  reflexivity.
Defined.

Lemma handle_handlesMatchRanges editor ev m :
  oneHandlePerDecoration editor ->
  handlesMatchRanges (self m) ->
  handlesMatchRanges (self (snd (handle editor ev m))).
Proof.
  intros Hone Hinv.
  destruct (handle_decorations editor ev m)
    as [[_ [Hd Hr]]|[new [_ [Hd Hnew]]]].
  - unfold handlesMatchRanges. rewrite Hd, Hr. exact Hinv.
  - destruct Hnew as [->|[ranges [Hr ->]]].
    + left. rewrite Hd.
      apply length_zero_iff_nil. rewrite Hone. reflexivity.
    + right. exists ranges. split; [exact Hr|].
      rewrite Hd, Hone. apply length_map.
Qed.

(** X13.  With editors that answer with one handle per decoration, in
    every state reached from the construction the contribution holds no
    handle at all, or one handle for each range it has recorded. *)
Theorem handles_match_recorded_ranges events editor0 :
  Forall (fun step => oneHandlePerDecoration (fst step)) events ->
  handlesMatchRanges (self (run events (constructor editor0))).
Proof.
  intros Hone.
  assert (Hrun : forall m, handlesMatchRanges (self m) ->
                           handlesMatchRanges (self (run events m))).
  { induction Hone as [|[editor ev] events Hhead _ IH]; intros m Hm; simpl.
    - exact Hm.
    - apply IH. apply handle_handlesMatchRanges; auto. }
  apply Hrun. left. reflexivity.
Qed.

Lemma handles_match_recorded_ranges_witness :
  handlesMatchRanges
    (self (run [(Sample.editor, DidChangeCursorPosition (mkPosition 1 7));
                (Sample.editor,
                 RequestSettled 0
                   (Fulfilled (Ranges [Sample.primary; Sample.mirror])))]
               (constructor Sample.editor))).
Proof.
  refine
    (handles_match_recorded_ranges
       [(Sample.editor, DidChangeCursorPosition (mkPosition 1 7));
        (Sample.editor,
         RequestSettled 0
           (Fulfilled (Ranges [Sample.primary; Sample.mirror])))]
       Sample.editor _).
  repeat constructor; intros old new; apply length_map.
Defined.

(** ** Settlements and the other listeners together *)

(** X14.  Neither switching the option off nor disposing cancels the
    resolution in flight: it stays pending, and when it fulfils later its
    ranges are recorded and decorated all the same, with the feature still
    off. *)
Theorem pending_resolution_outlives_disabling editor later r value m :
  isPending m r = true ->
  getOption_autoRename editor = false ->
  let disabled := snd (onDidChangeConfiguration editor true m) in
  let disposed := snd (dispose editor m) in
  let decorations :=
    map (fun range => mkDecoration range DECORATION) (recordedFor value) in
  isPending disabled r = true /\
  isPending disposed r = true /\
  _enabled (self (snd (settle later r (Fulfilled value) disabled))) = false /\
  _syncedRanges (self (snd (settle later r (Fulfilled value) disabled)))
  = Some (recordedFor value) /\
  decorationCalls (effectsOf (settle later r (Fulfilled value)) disabled)
  = [(deltaDecorations editor (_currentDecorations (self m)) [], decorations)] /\
  _syncedRanges (self (snd (settle later r (Fulfilled value) disposed)))
  = Some (recordedFor value) /\
  decorationCalls (effectsOf (settle later r (Fulfilled value)) disposed)
  = [(deltaDecorations editor (_currentDecorations (self m)) [], decorations)].
Proof.
  intros Hp Hoff disabled disposed decorations.
  assert (Hd : isPending disabled r = true).
  { unfold disabled. rewrite (disable_result editor m Hoff). exact Hp. }
  assert (Hs : isPending disposed r = true).
  { unfold disposed, dispose. rewrite _stopAll_result. exact Hp. }
  split; [exact Hd|]. split; [exact Hs|].
  rewrite (effectsOf_trace _ _ _ (settle_trace later r (Fulfilled value) disabled)).
  rewrite (effectsOf_trace _ _ _ (settle_trace later r (Fulfilled value) disposed)).
  rewrite !settle_self, Hd, Hs.
  unfold disabled, disposed, dispose.
  rewrite (disable_result editor m Hoff), _stopAll_result.
  repeat split.
Qed.

Lemma pending_resolution_outlives_disabling_witness :
  _syncedRanges
    (self (snd (settle Sample.editorDisabled 0 (Fulfilled (Ranges [Sample.third]))
                  (snd (onDidChangeConfiguration Sample.editorDisabled true
                          Sample.syncedAndResolving)))))
  = Some [Sample.third].
Proof.
  refine (proj1 (proj2 (proj2 (proj2
    (pending_resolution_outlives_disabling Sample.editorDisabled
       Sample.editorDisabled 0%nat (Ranges [Sample.third])
       Sample.syncedAndResolving _ _))))).
  - reflexivity.
  - reflexivity.
Defined.

(** X15.  A resolution that fulfils with anything but a non-empty array
    records the empty array and replaces the decorations by none.  After it
    no content change does anything: the listener returns without an edit,
    whatever the event. *)
Theorem no_result_leaves_nothing_to_mirror editor later r value e m :
  isPending m r = true ->
  isNonEmptyArray value = false ->
  let settled := snd (settle editor r (Fulfilled value) m) in
  _syncedRanges (self settled) = Some [] /\
  decorationCalls (effectsOf (settle editor r (Fulfilled value)) m)
  = [(_currentDecorations (self m), [])] /\
  fst (onDidChangeModelContent later e settled) = Normal tt /\
  executedEdits (effectsOf (onDidChangeModelContent later e) settled) = [].
Proof.
  intros Hp Hvalue settled.
  assert (Hempty : recordedFor value = []).
  { destruct value as [[|? ?]| |]; try reflexivity. discriminate Hvalue. }
  assert (Hr : _syncedRanges (self settled) = Some []).
  { unfold settled. rewrite settle_self, Hp. simpl. rewrite Hempty.
    reflexivity. }
  assert (Hm : mirrorable e (self settled) = false).
  { unfold mirrorable. rewrite Hr.
    destruct (changes e) as [|? [|? ?]]; reflexivity. }
  split; [exact Hr|]. split; [|split].
  - rewrite (effectsOf_trace _ _ _ (settle_trace editor r (Fulfilled value) m)).
    rewrite Hp, Hempty. reflexivity.
  - destruct (not_mirrorable_effects later e settled Hm) as [H|[model [_ H]]];
      rewrite H; reflexivity.
  - apply not_mirrorable_no_edits. exact Hm.
Qed.

Lemma no_result_leaves_nothing_to_mirror_witness :
  executedEdits
    (effectsOf
       (onDidChangeModelContent Sample.editor
          (mkChangedEvent [Sample.insertion]))
       (snd (settle Sample.editor 0 (Fulfilled Null)
               Sample.syncedAndResolving)))
  = [].
Proof.
  refine (proj2 (proj2 (proj2
    (no_result_leaves_nothing_to_mirror Sample.editor Sample.editor 0%nat Null
       (mkChangedEvent [Sample.insertion]) Sample.syncedAndResolving _ _)))).
  - reflexivity.
  - reflexivity.
Defined.

(** X16.  What a fulfilled resolution means for the next keystroke.  Once
    a pending resolution has fulfilled with a non-empty array, a single pure
    insertion that [isWithin] places in its first range makes the listener
    throw if the array holds that range alone, and is mirrored into the
    second range of the array otherwise. *)
Theorem fulfilment_then_insertion
    editor later model r primary others change m :
  isPending m r = true ->
  getModel later = Some model ->
  rangeLength change = 0 ->
  isWithin (range change) primary = true ->
  let settled :=
    snd (settle editor r (Fulfilled (Ranges (primary :: others))) m) in
  let listener := onDidChangeModelContent later (mkChangedEvent [change]) in
  match others with
  | [] =>
    fst (listener settled)
    = Throw (TypeError "Cannot read property 'startLineNumber' of undefined") /\
    executedEdits (effectsOf listener settled) = []
  | second :: _ =>
    fst (listener settled) = Normal tt /\
    executedEdits (effectsOf listener settled)
    = [mirroredEdit model change primary second]
  end.
Proof.
  intros Hp Hmodel Hlen Hin settled listener.
  assert (Hr : _syncedRanges (self settled) = Some (primary :: others)).
  { unfold settled. rewrite settle_self, Hp. reflexivity. }
  assert (Hm : mirrorable (mkChangedEvent [change]) (self settled) = true).
  { unfold mirrorable; simpl. rewrite Hr, Hlen, Hin. reflexivity. }
  pose proof (onDidChangeModelContent_cases later (mkChangedEvent [change])
                settled) as Hc.
  fold listener in Hc. rewrite Hmodel, Hm, Hr in Hc. simpl in Hc.
  destruct others as [|second rest];
    rewrite (effectsOf_logged _ _ _ _ Hc), Hc; split; reflexivity.
Qed.

Lemma fulfilment_then_insertion_witness :
  fst (onDidChangeModelContent Sample.editor
         (mkChangedEvent [Sample.insertion])
         (snd (settle Sample.editor 0 (Fulfilled (Ranges [Sample.primary]))
                 Sample.syncedAndResolving)))
  = Throw (TypeError "Cannot read property 'startLineNumber' of undefined").
Proof.
  refine (proj1
    (fulfilment_then_insertion Sample.editor Sample.editor Sample.model 0%nat
       Sample.primary [] Sample.insertion Sample.syncedAndResolving
       _ _ _ _)).
  - reflexivity.
  - reflexivity.
  - reflexivity.
  - reflexivity.
Defined.

(** ** The resolver's answers and its reports *)

Lemma failuresOf_one_silent model position token now p :
  (isGood (provideOnTypeRenameRanges p model position (token now)) = true \/
   exists err,
     provideOnTypeRenameRanges p model position (token now) = Throws err) ->
  failuresOf model position token now [p] = [].
Proof.
  unfold failuresOf. simpl.
  destruct (provideOnTypeRenameRanges p model position (token now))
    as [[value|err]|err]; simpl; auto.
  intros [Hgood|[err' Hthrows]]; discriminate.
Qed.

Lemma resolveFrom_reported model position token ps now :
  reported (fst (resolveFrom model position token ps now))
  = failuresOf model position token now
      (invoked (fst (resolveFrom model position token ps now))).
Proof.
  revert now. induction ps as [|p ps IH]; intros now.
  - reflexivity.
  - destruct (outcome_cases
                (provideOnTypeRenameRanges p model position (token now)))
      as [Hgood|[Hnothing|[err Hthrows]]].
    + destruct (resolveFrom_good model position token p ps now Hgood)
        as [_ [Hinv Hrep]].
      rewrite Hinv, Hrep. symmetry. apply failuresOf_one_silent. auto.
    + destruct (resolveFrom_nothing model position token p ps now Hnothing)
        as [_ [Hinv Hrep]].
      rewrite Hinv, Hrep, IH. symmetry. apply failuresOf_cons.
    + rewrite (resolveFrom_throwing model position token p ps now err Hthrows).
      simpl. symmetry. apply failuresOf_one_silent. eauto.
Qed.

Lemma resolveFrom_invoked_length model position token ps now :
  (List.length (invoked (fst (resolveFrom model position token ps now)))
   <= List.length ps)%nat.
Proof.
  rewrite resolveFrom_invoked_prefix, length_firstn. lia.
Qed.

(** X17.  The sink receives exactly the errors of the providers that were
    asked and whose promise rejected, in the order they were asked; the
    error of a provider that throws as it is called is not among them.  The
    providers asked are an initial segment of the registry's order, so no
    more are asked than are applicable to the document.  The chain helper
    [first] and the registry's order are as the specification describes
    them. *)
Theorem resolver_reports_rejections_only registry model position token :
  let outcome := getOnTypeRenameRanges registry model position token in
  reported (fst outcome)
  = failuresOf model position token 0 (invoked (fst outcome)) /\
  invoked (fst outcome)
  = firstn (List.length (invoked (fst outcome))) (ordered registry model) /\
  (List.length (invoked (fst outcome))
   <= List.length (filter (fun e => applicable e model) registry))%nat.
Proof.
  intros outcome. split; [|split].
  - apply resolveFrom_reported.
  - apply resolveFrom_invoked_prefix.
  - etransitivity; [apply resolveFrom_invoked_length|].
    unfold ordered, orderedEntries. rewrite length_map.
    rewrite <- (Permutation_length (sortByScore_permutation model _)). lia.
Qed.

(** X19.  For providers that do not throw as they are called: those asked
    are an initial segment of the registry's order; the first good outcome,
    a non-empty array, reached because the providers before it yielded
    nothing (an empty array, [null], [undefined] or a rejected promise), is
    the result, and no provider after it is asked; when every provider
    yields nothing, every one is asked and the result is the no-result
    value. *)
Theorem resolver_takes_first_non_empty registry model position token :
  let providers := ordered registry model in
  let outcome := getOnTypeRenameRanges registry model position token in
  invoked (fst outcome)
  = firstn (List.length (invoked (fst outcome))) providers /\
  (forall k p,
     nth_error providers k = Some p ->
     isGood (provideOnTypeRenameRanges p model position (token k)) = true ->
     (forall j q, (j < k)%nat -> nth_error providers j = Some q ->
        yieldsNothing (provideOnTypeRenameRanges q model position (token j))
        = true) ->
     Returns (snd outcome)
     = provideOnTypeRenameRanges p model position (token k) /\
     invoked (fst outcome) = firstn (S k) providers) /\
  ((forall j q, nth_error providers j = Some q ->
      yieldsNothing (provideOnTypeRenameRanges q model position (token j))
      = true) ->
   snd outcome = Fulfilled Null /\ invoked (fst outcome) = providers).
Proof.
  intros providers outcome.
  split; [apply resolveFrom_invoked_prefix|].
  split.
  - intros k p Hp Hgood Hbefore.
    rewrite (isGood_answer _ _ _ _ Hgood).
    destruct (resolveFrom_accepts model position token providers 0 k p Hp
                Hgood Hbefore) as [Hres Hinv].
    split; [|exact Hinv]. f_equal. exact Hres.
  - intros Hnone.
    apply (resolveFrom_exhausts model position token providers 0).
    exact Hnone.
Qed.

(** Four providers: the two of higher priority give nothing, the third is
    accepted and the fourth is not asked.  Two providers that give nothing:
    both are asked and there is no result. *)
Lemma resolver_takes_first_non_empty_witness :
  (let registry :=
     [Sample.entry 1 Sample.good; Sample.entry 2 Sample.empty;
      Sample.entry 2 Sample.failing; Sample.entry 1 Sample.other] in
   let outcome :=
     getOnTypeRenameRanges registry Sample.model (mkPosition 1 7)
       CancellationToken_None in
   Returns (snd outcome)
   = Returns (Fulfilled (Ranges [Sample.primary; Sample.mirror])) /\
   invoked (fst outcome) = [Sample.empty; Sample.failing; Sample.good]) /\
  (let registry := [Sample.entry 1 Sample.empty; Sample.entry 2 Sample.failing] in
   let outcome :=
     getOnTypeRenameRanges registry Sample.model (mkPosition 1 7)
       CancellationToken_None in
   snd outcome = Fulfilled Null /\
   invoked (fst outcome) = [Sample.failing; Sample.empty]).
Proof.
  split.
  - refine (proj1 (proj2
      (resolver_takes_first_non_empty
         [Sample.entry 1 Sample.good; Sample.entry 2 Sample.empty;
          Sample.entry 2 Sample.failing; Sample.entry 1 Sample.other]
         Sample.model (mkPosition 1 7) CancellationToken_None))
      2%nat Sample.good _ _ _).
    + reflexivity.
    + reflexivity.
    + intros [|[|j]] q Hj Hq; [| |lia]; injection Hq as <-; reflexivity.
  - refine (proj2 (proj2
      (resolver_takes_first_non_empty
         [Sample.entry 1 Sample.empty; Sample.entry 2 Sample.failing]
         Sample.model (mkPosition 1 7) CancellationToken_None)) _).
    intros [|[|j]] q Hq; try (injection Hq as <-; reflexivity).
    destruct j; discriminate Hq.
Defined.

(** X20.  A provider whose promise rejects counts as one that returned no
    result: its error is sent to the sink and the provider after it, if
    there is one, is asked; and the resolver's result and the providers it
    asks are the same as when every provider is replaced by one that
    returns [undefined] where its promise rejects. *)
Theorem rejected_provider_counts_as_no_result registry model position token :
  let providers := ordered registry model in
  let outcome := getOnTypeRenameRanges registry model position token in
  let quietly :=
    getOnTypeRenameRanges (map quietEntry registry) model position token in
  (forall k p err,
     (k < List.length (invoked (fst outcome)))%nat ->
     nth_error providers k = Some p ->
     provideOnTypeRenameRanges p model position (token k)
     = Returns (Rejected err) ->
     In err (reported (fst outcome)) /\
     ((S k < List.length providers)%nat ->
      (S k < List.length (invoked (fst outcome)))%nat)) /\
  snd quietly = snd outcome /\
  invoked (fst quietly) = map quiet (invoked (fst outcome)).
Proof.
  intros providers outcome quietly. split.
  - intros k p err Hk Hp Herr.
    apply (resolveFrom_reports model position token providers 0 k p err); auto.
  - unfold quietly, getOnTypeRenameRanges. cbv zeta.
    rewrite ordered_quiet. apply resolveFrom_quiet.
Qed.

(** A provider of the highest priority whose promise rejects: its error is
    reported and the next provider is asked. *)
Lemma rejected_provider_counts_as_no_result_witness :
  let registry := [Sample.entry 2 Sample.failing; Sample.entry 1 Sample.good] in
  let outcome :=
    getOnTypeRenameRanges registry Sample.model (mkPosition 1 7)
      CancellationToken_None in
  In (ExternalError "provider failed") (reported (fst outcome)) /\
  ((1 < 2)%nat -> (1 < List.length (invoked (fst outcome)))%nat).
Proof.
  refine (proj1
    (rejected_provider_counts_as_no_result
       [Sample.entry 2 Sample.failing; Sample.entry 1 Sample.good]
       Sample.model (mkPosition 1 7) CancellationToken_None)
    0%nat Sample.failing (ExternalError "provider failed") _ _ _).
  - vm_compute. lia.
  - reflexivity.
  - reflexivity.
Defined.

(** ** While the option is off *)

Lemma onDidChangeModelContent_starts_nothing editor e m :
  exists effects,
    trace (snd (onDidChangeModelContent editor e m)) = trace m ++ effects /\
    resolutionsStarted effects = [].
Proof.
  pose proof (onDidChangeModelContent_cases editor e m) as Hc.
  destruct (getModel editor) as [model|].
  - destruct (mirrorable e (self m)).
    + destruct (changes e) as [|change [|? ?]];
        try (rewrite Hc; eexists; split; reflexivity).
      destruct (_syncedRanges (self m)) as [[|primary [|second rest]]|];
        rewrite Hc; eexists; split; reflexivity.
    + rewrite Hc. eexists. split; reflexivity.
  - rewrite Hc. exists []. rewrite app_nil_r. split; reflexivity.
Qed.

Lemma handle_while_disabled editor ev m :
  _enabled (self m) = false ->
  getOption_autoRename editor = false ->
  _enabled (self (snd (handle editor ev m))) = false /\
  exists effects,
    trace (snd (handle editor ev m)) = trace m ++ effects /\
    resolutionsStarted effects = [].
Proof.
  intros Hoff Hoption.
  assert (Hguard : forall position c,
            _enabled c = false -> passesGuards editor position c = false).
  { intros position c Hc. unfold passesGuards. rewrite Hc. reflexivity. }
  destruct ev as [|changed|position| |e|r outcome]; cbn [handle].
  - rewrite onDidChangeModel_unfold.
    rewrite _run_unchanged by (apply Hguard; rewrite _stopAll_result; exact Hoff).
    rewrite _stopAll_result. simpl. split; [exact Hoff|].
    eexists. split; reflexivity.
  - destruct changed.
    + rewrite (disable_result editor m Hoption). simpl. split; [reflexivity|].
      eexists. split; reflexivity.
    + simpl. split; [exact Hoff|]. exists []. rewrite app_nil_r.
      split; reflexivity.
  - unfold onDidChangeCursorPosition.
    rewrite _run_unchanged by (apply Hguard; exact Hoff).
    simpl. split; [exact Hoff|]. exists []. rewrite app_nil_r.
    split; reflexivity.
  - unfold onDidChange_registry.
    rewrite _run_unchanged by (apply Hguard; exact Hoff).
    simpl. split; [exact Hoff|]. exists []. rewrite app_nil_r.
    split; reflexivity.
  - rewrite (proj1 (onDidChangeModelContent_frame editor e m)).
    split; [exact Hoff|]. apply onDidChangeModelContent_starts_nothing.
  - rewrite settle_self, settle_trace. split.
    + destruct outcome as [value|err]; [|exact Hoff].
      destruct (isPending m r); exact Hoff.
    + eexists. split; [reflexivity|].
      destruct (isPending m r); [|reflexivity].
      destruct outcome as [value|[| |]]; reflexivity.
Qed.

(** X18.  While the option is off the contribution starts no resolution:
    from a state with the flag off, and through any events seen with the
    option off (cursor moves, model and registry changes, edits,
    settlements of what was pending), the flag stays off and not one
    resolution is started. *)
Theorem nothing_starts_while_disabled events m :
  _enabled (self m) = false ->
  Forall (fun step => getOption_autoRename (fst step) = false) events ->
  _enabled (self (run events m)) = false /\
  resolutionsStarted (skipn (List.length (trace m)) (trace (run events m)))
  = [].
Proof.
  intros Hoff Hoption.
  assert (Hrun : _enabled (self (run events m)) = false /\
                 exists effects,
                   trace (run events m) = trace m ++ effects /\
                   resolutionsStarted effects = []).
  { revert m Hoff.
    induction Hoption as [|[editor ev] events Hhead _ IH]; intros m Hoff; simpl.
    - split; [exact Hoff|]. exists []. rewrite app_nil_r. split; reflexivity.
    - destruct (handle_while_disabled editor ev m Hoff Hhead)
        as [Hoff' [fx [Ht Hfx]]].
      destruct (IH _ Hoff') as [Hend [fx' [Ht' Hfx']]].
      split; [exact Hend|].
      exists (fx ++ fx'). rewrite Ht', Ht, app_assoc. split; [reflexivity|].
      rewrite resolutionsStarted_app, Hfx, Hfx'. reflexivity. }
  destruct Hrun as [Hend [fx [Ht Hfx]]].
  split; [exact Hend|]. rewrite Ht, skipn_length_app. exact Hfx.
Qed.

Lemma nothing_starts_while_disabled_witness :
  resolutionsStarted
    (trace
       (run [(Sample.editorDisabled, DidChangeCursorPosition (mkPosition 1 8));
             (Sample.editorDisabled, DidChangeModel);
             (Sample.editorDisabled, RegistryDidChange)]
            (constructor Sample.editorDisabled)))
  = [].
Proof.
  refine (proj2
    (nothing_starts_while_disabled
       [(Sample.editorDisabled, DidChangeCursorPosition (mkPosition 1 8));
        (Sample.editorDisabled, DidChangeModel);
        (Sample.editorDisabled, RegistryDidChange)]
       (constructor Sample.editorDisabled) _ _)).
  - reflexivity.
  - repeat constructor.
Defined.
